(** * dex-tts-model-service: the glue code of [main.py], embedded and verified

    [main.py] wraps a pretrained text-to-speech model behind three HTTP
    endpoints.  Its own logic is
    - the start-up scan that picks a CUDA device ([DeviceSelector]),
    - the uptime string of [GET /service] ([Uptime]),
    - the model loader, [GET /health] and [POST /generate] ([Service]).

    Python integers are [N]/[Z].  A Python float is the rational number it
    denotes, and every operation that rounds (reading a decimal literal,
    adding, subtracting, dividing) rounds to the nearest double
    ([Binary64]).  A Python string is the [string] of its UTF-8 bytes.  The
    filesystem is a finite map from paths to file contents. *)

From Stdlib Require Import QArith Qround DecimalString Ascii String.
From Stdlib Require DecimalFacts DecimalPos DecimalN.
From Stdlib Require Import Lqa.
From stdpp Require Import base decidable option list strings gmap.

Local Open Scope string_scope.
Local Open Scope list_scope.

(** ** Rendering integers the way an f-string does *)

(** [f"{n}"] for a non-negative Python int. *)
Definition str_of_N (n : N) : string :=
  NilZero.string_of_uint (N.to_uint n).

(** [f"{z}"] for any Python int. *)
Definition str_of_Z (z : Z) : string :=
  NilZero.string_of_int (Z.to_int z).

(** [needle in hay] on Python strings. *)
Fixpoint str_in (needle hay : string) : bool :=
  String.prefix needle hay ||
  match hay with
  | EmptyString => false
  | String _ rest => str_in needle rest
  end.

(** [a > b] on floats. *)
Definition float_gt (a b : Q) : bool := negb (Qle_bool a b).

(** ** Double-precision floats *)
Module Binary64.

(** Every finite double is a whole multiple of 2^-1074; [scale] is 2^1074,
    so a double [x] is kept as the whole number [x * scale]. *)
Definition scale : Z := 2 ^ 1074.

(** 2^1024 in that unit: what lies at or beyond it is [inf].  The code only
    compares such values, and as the largest value it compares as [inf]
    does. *)
Definition overflow : Z := 2 ^ 2098.

(** [N / D] rounded to the nearest whole number, ties to even. *)
Definition rne (N D : Z) : Z :=
  let a := (N / D)%Z in
  let r := (N mod D)%Z in
  if (2 * r <? D)%Z then a
  else if (D <? 2 * r)%Z then (a + 1)%Z
  else if Z.even a then a else (a + 1)%Z.

(** The double nearest to [p / q], for [0 <= p] and [0 < q], in units of
    2^-1074: with [E] the exponent of the last bit of a 53-bit mantissa
    (never below that of the subnormals), the mantissa is [p / q] over
    [2^E], rounded to nearest even. *)
Definition nearest (p q : Z) : Z :=
  let P := (p * scale)%Z in
  let E := Z.max (Z.log2 (P / q) - 52) 0 in
  Z.min (rne P (q * 2 ^ E) * 2 ^ E) overflow.

(** The double nearest to [x], ties to even: what [float("...")] makes of
    a decimal literal and what an arithmetic operation makes of its exact
    result. *)
Definition round (x : Q) : Q :=
  let p := Qnum x in
  let q := Z.pos (Qden x) in
  if (0 <=? p)%Z then Qmake (nearest p q) (Z.to_pos scale)
  else Qmake (- nearest (- p) q) (Z.to_pos scale).

(** [a + b], [a - b], [a / b] on floats *)
Definition fadd (a b : Q) : Q := round (a + b).
Definition fsub (a b : Q) : Q := round (a - b).
Definition fdiv (a b : Q) : Q := round (a / b).

(** [math.isinf(x)] *)
Definition isinf (x : Q) : bool :=
  Qle_bool (inject_Z (2 ^ 1024)) x || Qle_bool x (inject_Z (- 2 ^ 1024)).

End Binary64.

(** ** Device selection (main.py, lines 47-71) *)
Module DeviceSelector.

(** What [torch.cuda.get_device_properties(i)] exposes and the scan reads. *)
Record DeviceProps := {
  name : string;
  major : N;
  minor : N;
}.

(** [len(str(n))] *)
Definition decimal_len (n : N) : nat := Decimal.nb_digits (N.to_uint n).

(** The number the literal [f"{props.major}.{props.minor}"] writes: the
    major version, a dot, and the digits of the minor version. *)
Definition capability_literal (props : DeviceProps) : Q :=
  (inject_Z (Z.of_N (major props))
   + Qmake (Z.of_N (minor props))
           (Pos.pow 10 (Pos.of_nat (decimal_len (minor props)))))%Q.

(** [float(f"{props.major}.{props.minor}")]: the double nearest to that
    number. *)
Definition capability_float (props : DeviceProps) : Q :=
  Binary64.round (capability_literal props).

(** The variables the loop mutates, and the devices it logged
    ("Found GPU i: ...") in order. *)
Record ScanState := {
  best_device_index : nat;
  best_capability : Q;
  found_4060 : bool;
  logged : list nat;
}.

Definition scan_init : ScanState :=
  {| best_device_index := 0; best_capability := (-1.0)%Q;
     found_4060 := false; logged := [] |}.

(** The body of [for i in range(torch.cuda.device_count())], from index
    [i] on, over the properties of the devices [i, i+1, ...]. *)
Fixpoint scan (i : nat) (devs : list DeviceProps) (st : ScanState) : ScanState :=
  match devs with
  | [] => st
  | props :: rest =>
      let st := {| best_device_index := best_device_index st;
                   best_capability := best_capability st;
                   found_4060 := found_4060 st;
                   logged := logged st ++ [i] |} in
      if str_in "4060" (name props) then
        (* best_device_index = i; found_4060 = True; break *)
        {| best_device_index := i;
           best_capability := best_capability st;
           found_4060 := true;
           logged := logged st |}
      else
        let current_capability := capability_float props in
        scan (S i) rest
          (if float_gt current_capability (best_capability st) then
             {| best_device_index := i;
                best_capability := current_capability;
                found_4060 := found_4060 st;
                logged := logged st |}
           else st)
  end.

(** The [if torch.cuda.is_available():] branch. *)
Definition select_cuda (devs : list DeviceProps) : ScanState :=
  scan 0 devs scan_init.

(** [DEVICE]; [None] stands for [torch.cuda.is_available()] being false. *)
Definition DEVICE (cuda : option (list DeviceProps)) : string :=
  match cuda with
  | Some devs => "cuda:" +:+ str_of_N (N.of_nat (best_device_index (select_cuda devs)))
  | None => "cpu"
  end.

(** *** What the scan is meant to compute *)

Definition preferred (d : DeviceProps) : bool := str_in "4060" (name d).

(** Capability versions compared as (major, minor) pairs. *)
Definition version_lt (a b : DeviceProps) : Prop :=
  (major a < major b)%N ∨ (major a = major b ∧ (minor a < minor b)%N).

Definition version_le (a b : DeviceProps) : Prop :=
  (major a < major b)%N ∨ (major a = major b ∧ (minor a <= minor b)%N).

(** [i] is the earliest index of a device that is highest for [le], where
    [lt] is the strict part of [le]. *)
Definition earliest_highest (le lt : DeviceProps → DeviceProps → Prop)
    (devs : list DeviceProps) (i : nat) : Prop :=
  ∃ d, devs !! i = Some d
       ∧ (∀ j d', devs !! j = Some d' → le d' d)
       ∧ (∀ j d', j < i → devs !! j = Some d' → lt d' d).

Definition float_le (a b : DeviceProps) : Prop :=
  (capability_float a <= capability_float b)%Q.
Definition float_lt (a b : DeviceProps) : Prop :=
  (capability_float a < capability_float b)%Q.

(** [i] is the first index whose device name contains "4060". *)
Definition first_preferred (devs : list DeviceProps) (i : nat) : Prop :=
  ∃ d, devs !! i = Some d
       ∧ preferred d = true
       ∧ (∀ j d', j < i → devs !! j = Some d' → preferred d' = false).

Definition single_digit_minor (d : DeviceProps) : Prop := (minor d < 10)%N.

(** The major version fits the C [int] the CUDA runtime keeps it in. *)
Definition int_major (d : DeviceProps) : Prop := (major d < 2147483648)%N.

(** The minor version is written with at most six digits. *)
Definition short_minor (d : DeviceProps) : Prop := (decimal_len (minor d) ≤ 6)%nat.

Definition ada_8_9 := {| name := "NVIDIA GeForce RTX 4090"; major := 8; minor := 9 |}.
Definition ada_4060 := {| name := "NVIDIA GeForce RTX 4060 Ti"; major := 8; minor := 9 |}.
Definition pascal_6_1 := {| name := "NVIDIA GeForce GTX 1080"; major := 6; minor := 1 |}.
Definition hopper_9_0 := {| name := "NVIDIA H100 PCIe"; major := 9; minor := 0 |}.
(** A device whose minor version has two digits. *)
Definition future_8_10 := {| name := "NVIDIA Future"; major := 8; minor := 10 |}.

End DeviceSelector.

(** ** Uptime formatting (main.py, lines 118-124) *)
Module Uptime.
Import Binary64.

(** [int(x)] on a float: truncation towards zero. *)
Definition int (x : Q) : Z := Z.quot (Qnum x) (Z.pos (Qden x)).

(** C's [fmod(x, w)]: what is left of [x] after taking away [w] a whole
    number of times, towards zero; it is exact. *)
Definition fmod (x w : Q) : Q := (x - w * inject_Z (int (x / w)))%Q.

(** [x != 0] and [x < 0] on floats *)
Definition nonzero (x : Q) : bool := negb (Qeq_bool x 0).
Definition negative (x : Q) : bool := negb (Qle_bool 0 x).

(** [divmod(vx, wx)] on floats, as CPython computes it: the remainder by
    [fmod], moved to the sign of [wx]; the quotient from a rounded
    subtraction and a rounded division, then snapped to a whole number. *)
Definition divmod (vx wx : Q) : Q * Q :=
  let rem := fmod vx wx in
  let quo := fdiv (fsub vx rem) wx in
  let '(rem, quo) :=
    if nonzero rem then
      if xorb (negative wx) (negative rem) then (fadd rem wx, fsub quo 1)
      else (rem, quo)
    else (0%Q, quo) in
  let floordiv :=
    if nonzero quo then
      let floordiv := inject_Z (Qfloor quo) in
      if float_gt (fsub quo floordiv) 0.5 then fadd floordiv 1 else floordiv
    else 0%Q in
  (floordiv, rem).

(** The four statements that build [uptime_str] from
    [uptime_seconds = time.time() - START_TIME]. *)
Definition uptime_str (uptime_seconds : Q) : string :=
  let '(m, s) := divmod uptime_seconds 60 in
  let '(h, m) := divmod m 60 in
  let '(d, h) := divmod h 24 in
  if float_gt d 0 then
    str_of_Z (int d) +:+ "d " +:+ str_of_Z (int h) +:+ "h "
    +:+ str_of_Z (int m) +:+ "m " +:+ str_of_Z (int s) +:+ "s"
  else
    str_of_Z (int h) +:+ "h " +:+ str_of_Z (int m) +:+ "m "
    +:+ str_of_Z (int s) +:+ "s".

(** The two shapes of the string, from whole days, hours, minutes, seconds. *)
Definition with_days (D H M S : Z) : string :=
  str_of_Z D +:+ "d " +:+ str_of_Z H +:+ "h "
  +:+ str_of_Z M +:+ "m " +:+ str_of_Z S +:+ "s".

Definition without_days (H M S : Z) : string :=
  str_of_Z H +:+ "h " +:+ str_of_Z M +:+ "m " +:+ str_of_Z S +:+ "s".


(** The durations for which every whole number the three [divmod]s meet is
    a double: from -2^52 up to 2^53 seconds. *)
Definition in_range (x : Q) : Prop :=
  (inject_Z (- 2 ^ 52) <= x)%Q ∧ (x < inject_Z (2 ^ 53))%Q.

End Uptime.

(** ** The service: model loader, [/health], [/generate] (main.py, lines 74-191) *)
Module Service.

(** *** Values *)

(** The handle [TTS(model_name).to(device)] returns. *)
Record Model := { model_name : string; model_device : string }.

(** Instances of [Exception]: the [HTTPException]s the handlers raise, and
    every other exception, known here by its [str(e)]. *)
Inductive PyException :=
  | HTTPException (status_code : Z) (detail : string)
  | Exception (message : string).

(** [str(e)] *)
Definition str_of_exception (e : PyException) : string :=
  match e with
  | HTTPException status_code detail => str_of_Z status_code +:+ ": " +:+ detail
  | Exception message => message
  end.

(** The JSON bodies of this service are flat objects of strings. *)
Inductive Body :=
  | JsonBody (content : list (string * string))
  | RawBody (content : list Byte.byte) (media_type : string)
  | TextBody (content : string).

(** What goes back to the HTTP client. *)
Record Reply := { status : Z; body : Body }.

(** [class GenerateRequest(BaseModel)] *)
Record GenerateRequest := {
  text : string;
  language : string;
  speaker_wav : string;
}.

(** Calls that touch the filesystem, in the order they were made. *)
Inductive FsCall :=
  | CallTtsToFile (text file_path speaker_wav language : string)
  | CallRead (path : string)
  | CallRemove (path : string).

Inductive LogLevel := INFO | ERROR.

(** *** The process and its surroundings *)

(** The mutable state: the global [tts_model], the files on disk, the
    position in the stream of random UUIDs, the log lines written and the
    filesystem calls made so far. *)
Record World := {
  tts_model : option Model;
  files : gmap string (list Byte.byte);
  uuids_drawn : nat;
  log : list (LogLevel * string);
  fs_calls : list FsCall;
}.

(** The module constants and the collaborators the code treats as black
    boxes. *)
Record Env := {
  cuda : option (list DeviceSelector.DeviceProps);
  DEFAULT_SPEAKER_PATH : string;
  OUTPUT_DIR : string;
  (** the exception [from TTS.api import TTS] raises, if any *)
  TTS_import : option PyException;
  (** [TTS(name).to(device)] under [unsafe_torch_load()]: what it leaves on
      disk (it may fetch the model files), and its outcome *)
  TTS_load :
    string → string → gmap string (list Byte.byte) →
    gmap string (list Byte.byte) * (PyException + Model);
  (** [model.tts_to_file(text, file_path, speaker_wav, language)]: what it
      leaves on disk, and the exception it raised if any *)
  tts_to_file :
    Model → string → string → string → string →
    gmap string (list Byte.byte) → gmap string (list Byte.byte) * option PyException;
  (** the successive values of [uuid.uuid4()] *)
  uuid_stream : nat → string;
  (** failures of the operating system on a call ([PermissionError],
      I/O errors), beyond a missing file *)
  os_fault : FsCall → option PyException;
}.

Definition DEVICE (env : Env) : string := DeviceSelector.DEVICE (cuda env).

(** *** Computations that read and write the world and may raise *)

Definition Py (A : Type) : Type := World → World * (PyException + A).

#[export] Instance Py_ret : MRet Py := λ A (a : A) w, (w, inr a).

#[export] Instance Py_bind : MBind Py := λ A B (f : A → Py B) (m : Py A) w,
  match m w with
  | (w', inl e) => (w', inl e)
  | (w', inr a) => f a w'
  end.

Definition raise {A} (e : PyException) : Py A := λ w, (w, inl e).

(** [try: body except Exception as e: handler(e)] *)
Definition try_except {A} (body : Py A) (handler : PyException → Py A) : Py A :=
  λ w, match body w with
       | (w', inl e) => handler e w'
       | (w', inr a) => (w', inr a)
       end.

Definition get_tts_model : Py (option Model) := λ w, (w, inr (tts_model w)).

Definition set_tts_model (m : option Model) : Py unit := λ w,
  ({| tts_model := m; files := files w; uuids_drawn := uuids_drawn w;
      log := log w; fs_calls := fs_calls w |}, inr tt).

Definition logger (level : LogLevel) (msg : string) : Py unit := λ w,
  ({| tts_model := tts_model w; files := files w; uuids_drawn := uuids_drawn w;
      log := log w ++ [(level, msg)]; fs_calls := fs_calls w |}, inr tt).

(** Replace the files and record the call that did it. *)
Definition fs_step (c : FsCall) (fs : gmap string (list Byte.byte)) (w : World) : World :=
  {| tts_model := tts_model w; files := fs; uuids_drawn := uuids_drawn w;
     log := log w; fs_calls := fs_calls w ++ [c] |}.

(** [str(uuid.uuid4())] *)
Definition uuid4 (env : Env) : Py string := λ w,
  ({| tts_model := tts_model w; files := files w; uuids_drawn := S (uuids_drawn w);
      log := log w; fs_calls := fs_calls w |}, inr (uuid_stream env (uuids_drawn w))).

(** [os.path.exists(path)] *)
Definition os_path_exists (path : string) : Py bool := λ w,
  (w, inr (bool_decide (is_Some (files w !! path)))).

(** [s.endswith("/")] *)
Fixpoint endswith_sep (s : string) : bool :=
  match s with
  | EmptyString => false
  | String c EmptyString => Ascii.eqb c "/"%char
  | String _ rest => endswith_sep rest
  end.

(** [os.path.join(a, b)] on POSIX *)
Definition os_path_join (a b : string) : string :=
  if String.prefix "/" b then b
  else if String.eqb a "" || endswith_sep a then a +:+ b
  else a +:+ "/" +:+ b.

Definition FileNotFoundError (path : string) : PyException :=
  Exception ("[Errno 2] No such file or directory: '" +:+ path +:+ "'").

(** [model.tts_to_file(text=..., file_path=..., speaker_wav=..., language=...)] *)
Definition model_tts_to_file (env : Env) (m : Model)
    (text file_path speaker_wav language : string) : Py unit := λ w,
  let '(fs, r) := tts_to_file env m text file_path speaker_wav language (files w) in
  (fs_step (CallTtsToFile text file_path speaker_wav language) fs w,
   match r with Some e => inl e | None => inr tt end).

(** [with open(path, "rb") as f: f.read()] *)
Definition read_file (env : Env) (path : string) : Py (list Byte.byte) := λ w,
  (fs_step (CallRead path) (files w) w,
   match os_fault env (CallRead path) with
   | Some e => inl e
   | None =>
       match files w !! path with
       | Some content => inr content
       | None => inl (FileNotFoundError path)
       end
   end).

(** [os.remove(path)] *)
Definition os_remove (env : Env) (path : string) : Py unit := λ w,
  match os_fault env (CallRemove path) with
  | Some e => (fs_step (CallRemove path) (files w) w, inl e)
  | None =>
      match files w !! path with
      | Some _ => (fs_step (CallRemove path) (delete path (files w)) w, inr tt)
      | None => (fs_step (CallRemove path) (files w) w, inl (FileNotFoundError path))
      end
  end.

(** *** Start-up *)

(** [from TTS.api import TTS] *)
Definition import_TTS (env : Env) : Py unit := λ w,
  (w, match TTS_import env with Some e => inl e | None => inr tt end).

(** [TTS(name).to(device)] *)
Definition TTS_to (env : Env) (name device : string) : Py Model := λ w,
  let '(fs, r) := TTS_load env name device (files w) in
  ({| tts_model := tts_model w; files := fs; uuids_drawn := uuids_drawn w;
      log := log w; fs_calls := fs_calls w |}, r).

(** The part of [lifespan] before [yield]. *)
Definition lifespan_startup (env : Env) : Py unit :=
  logger INFO ("Starting TTS Service on device: " +:+ DEVICE env);;
  try_except
    (import_TTS env;;
     logger INFO "Loading XTTS-v2 model (with weights_only=False override)...";;
     m ← TTS_to env "tts_models/multilingual/multi-dataset/xtts_v2" (DEVICE env);
     set_tts_model (Some m);;
     logger INFO "XTTS-v2 model loaded successfully.")
    (λ e,
     logger ERROR ("Failed to load TTS model: " +:+ str_of_exception e);;
     set_tts_model None).

(** The part of [lifespan] after [yield]. *)
Definition lifespan_shutdown : Py unit :=
  logger INFO "TTS Service shutdown complete.".

(** Whether the model gets loaded at start-up in world [w], and the
    exception if not. *)
Definition load_outcome (env : Env) (w : World) : PyException + Model :=
  match TTS_import env with
  | Some e => inl e
  | None =>
      snd (TTS_load env "tts_models/multilingual/multi-dataset/xtts_v2" (DEVICE env)
             (files w))
  end.


(** The world when the module has been imported: [tts_model = None]. *)
Definition boot (fs : gmap string (list Byte.byte)) : World :=
  {| tts_model := None; files := fs; uuids_drawn := 0; log := []; fs_calls := [] |}.

(** *** Handlers *)

(** [GET /health] *)
Definition health_check (env : Env) : Py Reply :=
  m ← get_tts_model;
  match m with
  | None =>
      mret {| status := 503;
              body := JsonBody [("status", "error"); ("detail", "Model not loaded")] |}
  | Some _ =>
      mret {| status := 200;
              body := JsonBody [("status", "ok"); ("device", DEVICE env);
                                ("model", "xtts_v2")] |}
  end.

(** A byte that continues a UTF-8 character: 10xxxxxx. *)
Definition utf8_continuation (c : ascii) : bool :=
  let n := Ascii.nat_of_ascii c in (128 <=? n)%nat && (n <? 192)%nat.

(** [s[:n]]: the first [n] characters of a string, each character being a
    leading byte with the continuation bytes that follow it. *)
Fixpoint str_take (n : nat) (s : string) : string :=
  match s with
  | EmptyString => EmptyString
  | String c rest =>
      if utf8_continuation c then String c (str_take n rest)
      else match n with
           | 0 => EmptyString
           | S n' => String c (str_take n' rest)
           end
  end.

(** [len(s)]: the number of characters of a string. *)
Fixpoint str_len (s : string) : nat :=
  match s with
  | EmptyString => 0
  | String c rest =>
      if utf8_continuation c then str_len rest else S (str_len rest)
  end.

(** [not s] on a string *)
Definition str_is_empty (s : string) : bool :=
  match s with EmptyString => true | String _ _ => false end.

(** The body of the [try] in [generate_audio]. *)
Definition synthesize (env : Env) (m : Model) (request : GenerateRequest) : Py Reply :=
  logger INFO ("Generating audio for: '" +:+ str_take 30 (text request)
               +:+ "...' ");;
  u ← uuid4 env;
  let filename := u +:+ ".wav" in
  let output_path := os_path_join (OUTPUT_DIR env) filename in
  model_tts_to_file env m (text request) output_path (speaker_wav request)
    (language request);;
  audio_data ← read_file env output_path;
  os_remove env output_path;;
  mret {| status := 200; body := RawBody audio_data "audio/wav" |}.

(** [POST /generate] *)
Definition generate_audio (env : Env) (request : GenerateRequest) : Py Reply :=
  m ← get_tts_model;
  match m with
  | None => raise (HTTPException 503 "TTS model is not available.")
  | Some model =>
      if str_is_empty (text request) then
        raise (HTTPException 400 "Text is required.")
      else
        let speaker_wav := speaker_wav request in
        found ← os_path_exists speaker_wav;
        if negb found then
          if String.eqb speaker_wav (DEFAULT_SPEAKER_PATH env) then
            raise (HTTPException 500
                     ("Default reference voice not found at "
                      +:+ DEFAULT_SPEAKER_PATH env
                      +:+ ". Please add a reference.wav file."))
          else
            raise (HTTPException 400 ("Speaker wav file not found: " +:+ speaker_wav))
        else
          try_except (synthesize env model request)
            (λ e,
             logger ERROR ("Generation failed: " +:+ str_of_exception e);;
             raise (HTTPException 500 (str_of_exception e)))
  end.

(** What the framework sends for the outcome of a handler: the reply it
    returned, the status and detail of an [HTTPException], or a bare 500
    for any other exception. *)
Definition respond (r : PyException + Reply) : Reply :=
  match r with
  | inr reply => reply
  | inl (HTTPException status_code detail) =>
      {| status := status_code; body := JsonBody [("detail", detail)] |}
  | inl (Exception _) => {| status := 500; body := TextBody "Internal Server Error" |}
  end.

(** One request served in world [w]: the world afterwards and the reply. *)
Definition serve (handler : Py Reply) (w : World) : World * Reply :=
  let '(w', r) := handler w in (w', respond r).

(** A character of [string.whitespace]: space, tab, newline, return,
    vertical tab, form feed. *)
Definition is_whitespace (c : ascii) : bool :=
  let n := Ascii.nat_of_ascii c in (n =? 32)%nat || ((9 <=? n)%nat && (n <=? 13)%nat).

Fixpoint all_whitespace (s : string) : bool :=
  match s with
  | EmptyString => true
  | String c rest => is_whitespace c && all_whitespace rest
  end.

(** A text that consists solely of whitespace: non-empty, every character
    in [string.whitespace]. *)
Definition isspace (s : string) : bool := negb (str_is_empty s) && all_whitespace s.

(** *** Vocabulary for the request lifecycle *)

(** The temporary file a request served in world [w] writes to. *)
Definition output_path (env : Env) (w : World) : string :=
  os_path_join (OUTPUT_DIR env) (uuid_stream env (uuids_drawn w) +:+ ".wav").

(** What [tts_to_file] does when [request] is served in world [w]. *)
Definition tts_outcome (env : Env) (m : Model) (request : GenerateRequest) (w : World)
    : gmap string (list Byte.byte) * option PyException :=
  tts_to_file env m (text request) (output_path env w) (speaker_wav request)
    (language request) (files w).

Definition tts_call (env : Env) (request : GenerateRequest) (w : World) : FsCall :=
  CallTtsToFile (text request) (output_path env w) (speaker_wav request)
    (language request).

(** The three checks of [generate_audio] pass. *)
Definition validated (request : GenerateRequest) (w : World) (m : Model) : Prop :=
  tts_model w = Some m
  ∧ text request ≠ ""
  ∧ is_Some (files w !! speaker_wav request).

(** Reading the artifact from the files [fs] raises [e]. *)
Definition read_raises (env : Env) (path : string)
    (fs : gmap string (list Byte.byte)) (e : PyException) : Prop :=
  os_fault env (CallRead path) = Some e
  ∨ (os_fault env (CallRead path) = None
     ∧ fs !! path = None ∧ e = FileNotFoundError path).

(** Where an exception [e] can come from inside the [try]: the synthesis,
    reading the artifact back, or deleting it. *)
Inductive raises_in_try (env : Env) (m : Model) (request : GenerateRequest)
    (w : World) (e : PyException) : Prop :=
  | raises_in_synthesis fs :
      tts_outcome env m request w = (fs, Some e) →
      raises_in_try env m request w e
  | raises_in_read fs :
      tts_outcome env m request w = (fs, None) →
      read_raises env (output_path env w) fs e →
      raises_in_try env m request w e
  | raises_in_remove fs audio :
      tts_outcome env m request w = (fs, None) →
      os_fault env (CallRead (output_path env w)) = None →
      fs !! output_path env w = Some audio →
      os_fault env (CallRemove (output_path env w)) = Some e →
      raises_in_try env m request w e.

(** The world once the [try] block has written its log line and drawn its
    UUID. *)
Definition in_try (request : GenerateRequest) (w : World) : World :=
  {| tts_model := tts_model w; files := files w;
     uuids_drawn := S (uuids_drawn w);
     log := log w ++ [(INFO, "Generating audio for: '"
                             +:+ str_take 30 (text request) +:+ "...' ")];
     fs_calls := fs_calls w |}.

(** The [except Exception as e] clause of [generate_audio]. *)
Definition generation_failed (e : PyException) : Py Reply :=
  logger ERROR ("Generation failed: " +:+ str_of_exception e);;
  raise (HTTPException 500 (str_of_exception e)).

Definition error_reply (status_code : Z) (detail : string) : Reply :=
  {| status := status_code; body := JsonBody [("detail", detail)] |}.

(** *** A concrete deployment, for examples *)

Definition demo_wav : list Byte.byte := [Byte.x52; Byte.x49; Byte.x46; Byte.x46].

Definition demo_env (load_ok synth_ok : bool) : Env :=
  {| cuda := Some [DeviceSelector.pascal_6_1; DeviceSelector.ada_4060];
     DEFAULT_SPEAKER_PATH := "/srv/tts/assets/reference.wav";
     OUTPUT_DIR := "/srv/tts/output";
     TTS_import := None;
     TTS_load name device fs :=
       (fs, if load_ok then inr {| model_name := name; model_device := device |}
            else inl (Exception "CUDA error: out of memory"));
     tts_to_file m text file_path speaker_wav language fs :=
       if synth_ok then (<[file_path := demo_wav]> fs, None)
       else (fs, Some (Exception "Language not supported"));
     uuid_stream n := "0000-" +:+ str_of_N (N.of_nat n);
     os_fault c := None |}.

Definition demo_files : gmap string (list Byte.byte) :=
  {[ "/srv/tts/assets/reference.wav" := demo_wav ]}.

Definition demo_request (t : string) : GenerateRequest :=
  {| text := t; language := "en"; speaker_wav := "/srv/tts/assets/reference.wav" |}.

(** A deployment where the synthesis works but the output directory does
    not allow files to be removed. *)
Definition demo_env_no_remove : Env :=
  {| cuda := cuda (demo_env true true);
     DEFAULT_SPEAKER_PATH := DEFAULT_SPEAKER_PATH (demo_env true true);
     OUTPUT_DIR := OUTPUT_DIR (demo_env true true);
     TTS_import := None;
     TTS_load := TTS_load (demo_env true true);
     tts_to_file := tts_to_file (demo_env true true);
     uuid_stream := uuid_stream (demo_env true true);
     os_fault c :=
       match c with
       | CallRemove path => Some (Exception "[Errno 13] Permission denied")
       | _ => None
       end |}.

Definition demo_model : Model :=
  {| model_name := "tts_models/multilingual/multi-dataset/xtts_v2";
     model_device := "cuda:1" |}.

(** *** Requests as clients build them, and served in sequence *)

(** [GenerateRequest(text=..., language=..., speaker_wav=...)]: the fields a
    client leaves out take the defaults of the class. *)
Definition GenerateRequest_init (env : Env) (text : string)
    (language speaker_wav : option string) : GenerateRequest :=
  {| text := text;
     language := default "en" language;
     speaker_wav := default (DEFAULT_SPEAKER_PATH env) speaker_wav |}.

(** [POST /generate] for each request of a list, one after the other. *)
Fixpoint serve_all (env : Env) (requests : list GenerateRequest) (w : World)
    : World * list Reply :=
  match requests with
  | [] => (w, [])
  | request :: rest =>
      let '(w1, reply) := serve (generate_audio env request) w in
      let '(w2, replies) := serve_all env rest w1 in
      (w2, reply :: replies)
  end.

End Service.

(** ** [GET /service] (main.py, lines 115-143) *)
Module Status.
Import Service.

#[local] Set Warnings "-register-all".

Inductive JSON :=
  | JString (s : string)
  | JNumber (x : Q)
  | JObject (fields : list (string * JSON)).

(** What the clock and [psutil] give while the handler runs: the
    module-level [START_TIME] and [time.time()] at the request, both
    doubles, and the outcomes of [psutil.Process(os.getpid())], of
    [process.cpu_percent(interval=0.1)] and of
    [process.memory_info().rss], each of which may raise. *)
Record Host := {
  START_TIME : Q;
  time_now : Q;
  psutil_Process : PyException + unit;
  cpu_percent : PyException + Q;
  memory_info_rss : PyException + N;
}.

(** A call into the host: it leaves the world alone. *)
Definition host_call {A} (outcome : PyException + A) : Py A :=
  λ w, (w, outcome).

(** [a / b] on two ints, [b] positive: the quotient rounded once, and an
    [OverflowError] when that is no finite float. *)
Definition int_truediv (a b : Z) : Py Q :=
  let r := Binary64.round (inject_Z a / inject_Z b) in
  if Binary64.isinf r then
    raise (Exception "integer division result too large for a float")
  else mret r.

(** The f-string of the uptime.  [int()] refuses what is not a finite
    float: of an infinite uptime every [divmod] is NaN, and the string is
    not built. *)
Definition format_uptime (uptime_seconds : Q) : Py string :=
  if Binary64.isinf uptime_seconds then
    raise (Exception "cannot convert float NaN to integer")
  else mret (Uptime.uptime_str uptime_seconds).

(** [GET /service] *)
Definition service_status (host : Host) : Py JSON :=
  _ ← host_call (psutil_Process host);
  let uptime_seconds := Binary64.fsub (time_now host) (START_TIME host) in
  uptime_str ← format_uptime uptime_seconds;
  m ← get_tts_model;
  cpu ← host_call (cpu_percent host);
  rss ← host_call (memory_info_rss host);
  kb ← int_truediv (Z.of_N rss) 1024%Z;
  mret (JObject
    [("version", JObject
        [("str", JString "0.0.1");
         ("obj", JObject [("branch", JString "main");
                          ("commit", JString "unknown");
                          ("build_date", JString "unknown")])]);
     ("health", JObject
        [("status", JString (match m with Some _ => "OK" | None => "ERROR" end));
         ("uptime", JString uptime_str)]);
     ("metrics", JObject
        [("cpu", JObject [("avg", JNumber cpu)]);
         ("memory", JObject [("avg", JNumber (Binary64.fdiv kb 1024%Q))])])]).

(** [doc[key]] on a JSON object *)
Definition json_field (key : string) (doc : JSON) : option JSON :=
  match doc with
  | JObject fields => snd <$> List.find (λ kv, String.eqb (fst kv) key) fields
  | _ => None
  end.

(** [doc[k1][k2]...] *)
Definition json_path (keys : list string) (doc : JSON) : option JSON :=
  foldl (λ o key, o ≫= json_field key) (Some doc) keys.

Definition demo_host : Host :=
  {| START_TIME := 1700000000.25; time_now := 1700090061.75;
     psutil_Process := inr ();
     cpu_percent := inr 12.5%Q; memory_info_rss := inr 3221225472%N |}.

(** The same host when the process may not be inspected. *)
Definition demo_host_denied : Host :=
  {| START_TIME := 1700000000.25; time_now := 1700090061.75;
     psutil_Process := inr ();
     cpu_percent := inl (Exception "psutil.AccessDenied");
     memory_info_rss := inr 3221225472%N |}.

End Status.

(** ** The patch of [torch.load] (main.py, lines 30-42) *)
Module TorchLoad.
Import Service.

(** Values that travel in the arguments of [torch.load]. *)
Inductive PyVal :=
  | PyNone
  | PyBool (b : bool)
  | PyInt (z : Z)
  | PyStr (s : string).

Section Patch.

(** What a call of the loader yields. *)
Context {R : Type}.

(** A callable taking positional arguments and keyword arguments. *)
Definition Loader : Type := list PyVal → gmap string PyVal → R.

(** The [torch] module, as far as this code touches it: its attribute
    [load]. *)
Record Torch := { load : Loader }.

(** The inner function [unsafe_load], closed over [original_load]. *)
Definition unsafe_load (original_load : Loader) : Loader := λ args kwargs,
  let kwargs :=
    if bool_decide ("weights_only" ∈ dom kwargs) then kwargs
    else <["weights_only" := PyBool false]> kwargs in
  original_load args kwargs.

(** [with unsafe_torch_load(): body].  The body runs with the patched
    attribute; the [finally] puts [original_load] back whether the body
    returned or raised, and the outcome of the body is that of the block. *)
Definition unsafe_torch_load {A} (body : Torch → Torch * (PyException + A))
    : Torch → Torch * (PyException + A) := λ torch,
  let original_load := load torch in
  let '(torch', r) := body {| load := unsafe_load original_load |} in
  ({| load := original_load |}, r).

(** A call of [torch.load], positional [args] and keyword [kwargs], at the
    current value of the attribute. *)
Definition torch_load (args : list PyVal) (kwargs : gmap string PyVal)
    : Torch → Torch * (PyException + R) := λ torch,
  (torch, inr (load torch args kwargs)).

End Patch.

Arguments Loader : clear implicits.
Arguments Torch : clear implicits.

(** A loader that reports the arguments it was called with. *)
Definition echo_load : Loader (list PyVal * list (string * PyVal)) :=
  λ args kwargs, (args, map_to_list kwargs).

End TorchLoad.

(** * Properties of the rounding to doubles *)
Module Binary64Facts.
Import Binary64.
#[local] Open Scope Z_scope.

Lemma scale_pos : (0 < scale)%Z.
Proof. unfold scale. apply Z.pow_pos_nonneg; lia. Qed.

Lemma pos_scale : Z.pos (Z.to_pos scale) = scale.
Proof. apply Z2Pos.id, scale_pos. Qed.

(** [rne N D] is within half a unit of [N / D]. *)
Lemma rne_close N D :
  (0 < D)%Z → (2 * Z.abs (rne N D * D - N) <= D)%Z.
Proof.
  intros HD. unfold rne.
  pose proof (Z.div_mod N D ltac:(lia)) as Hdm.
  pose proof (Z.mod_pos_bound N D HD) as Hr.
  set (a := (N / D)%Z) in *. set (r := (N mod D)%Z) in *.
  destruct (Z.ltb_spec (2 * r) D); [nia|].
  destruct (Z.ltb_spec D (2 * r)); [nia|].
  destruct (Z.even a); nia.
Qed.

Lemma rne_nonneg N D : (0 <= N)%Z → (0 < D)%Z → (0 <= rne N D)%Z.
Proof.
  intros HN HD. unfold rne.
  assert (0 <= N / D)%Z by (apply Z.div_pos; lia).
  repeat destruct (_ <? _)%Z; try destruct (Z.even _); lia.
Qed.

Lemma rne_exact a D : (0 < D)%Z → rne (a * D) D = a.
Proof.
  intros HD. unfold rne. rewrite Z.div_mul, Z.mod_mul by lia.
  destruct (Z.ltb_spec (2 * 0) D); [done | lia].
Qed.

Lemma nearest_nonneg p q : (0 <= p)%Z → (0 < q)%Z → (0 <= nearest p q)%Z.
Proof.
  intros Hp Hq. unfold nearest. cbv zeta.
  pose proof scale_pos.
  set (E := Z.max _ 0).
  assert (0 < 2 ^ E)%Z by (apply Z.pow_pos_nonneg; lia).
  assert (0 <= rne (p * scale) (q * 2 ^ E))%Z by (apply rne_nonneg; nia).
  apply Z.min_glb; [nia|]. unfold overflow. apply Z.pow_nonneg. lia.
Qed.

(** Rounding keeps the sign. *)
Lemma round_nonneg x : (0 <= x)%Q → (0 <= round x)%Q.
Proof.
  intros Hx. unfold round. destruct x as [p q]. unfold Qle in *. cbn [Qnum Qden] in *.
  destruct (Z.leb_spec 0 p); [|lia]. cbn [Qnum Qden].
  pose proof (nearest_nonneg p (Z.pos q)). lia.
Qed.

(** A dyadic number with a mantissa below 2^53 and an exponent a double can
    hold is a double: rounding leaves it as it is. *)
Lemma nearest_exact p q z j :
  (0 <= z < 2 ^ 53)%Z → (0 <= j <= 1074)%Z → (0 < q)%Z →
  (p * 2 ^ j = z * q)%Z →
  (nearest p q * q = p * scale)%Z.
Proof.
  intros Hz Hj Hq Hpz. unfold nearest. cbv zeta.
  set (X := (z * 2 ^ (1074 - j))%Z).
  assert (Hscale : scale = (2 ^ j * 2 ^ (1074 - j))%Z).
  { unfold scale. rewrite <- Z.pow_add_r by lia. f_equal. lia. }
  assert (HP : (p * scale = X * q)%Z).
  { rewrite Hscale. subst X. nia. }
  rewrite HP, Z.div_mul by lia.
  set (E := Z.max (Z.log2 X - 52) 0).
  assert (H2j : (0 < 2 ^ (1074 - j))%Z) by (apply Z.pow_pos_nonneg; lia).
  assert (HE : ∃ X', X = (X' * 2 ^ E)%Z).
  { destruct (Z.eq_dec E 0) as [->|HE0].
    - exists X. lia.
    - assert (Hzpos : (0 < z)%Z).
      { destruct (Z.eq_dec z 0) as [->|]; [|lia].
        subst X E. rewrite Z.mul_0_l in HE0. cbn in HE0. lia. }
      assert (Hlog : Z.log2 X = (Z.log2 z + (1074 - j))%Z).
      { subst X. rewrite Z.log2_mul_pow2 by lia. lia. }
      assert (Hlz : (Z.log2 z < 53)%Z) by (apply Z.log2_lt_pow2; lia).
      assert (HEle : (E <= 1074 - j)%Z) by lia.
      assert (HE0' : (0 <= E)%Z) by lia.
      exists (z * 2 ^ (1074 - j - E))%Z. subst X.
      rewrite <- Z.mul_assoc, <- Z.pow_add_r by lia. do 2 f_equal. lia. }
  destruct HE as [X' HX'].
  assert (H2E : (0 < 2 ^ E)%Z) by (apply Z.pow_pos_nonneg; lia).
  replace (X * q)%Z with (X' * (q * 2 ^ E))%Z by (rewrite HX'; ring).
  rewrite rne_exact by nia. rewrite <- HX'.
  assert (Hov : (X <= overflow)%Z).
  { subst X. unfold overflow.
    replace 2098%Z with (53 + (1074 - j) + (971 + j))%Z by lia.
    rewrite !Z.pow_add_r by lia.
    assert (0 < 2 ^ (971 + j))%Z by (apply Z.pow_pos_nonneg; lia).
    nia. }
  rewrite Z.min_l by done. clearbody E X. rewrite HX'. ring.
Qed.

Lemma round_exact (y : Q) (z j : Z) :
  (Z.abs z < 2 ^ 53)%Z → (0 <= j <= 1074)%Z →
  (Qnum y * 2 ^ j = z * Z.pos (Qden y))%Z →
  round y == y.
Proof.
  intros Hz Hj Hy. destruct y as [p q]. cbn [Qnum Qden] in Hy.
  assert (H2j : (0 < 2 ^ j)%Z) by (apply Z.pow_pos_nonneg; lia).
  unfold round. cbn [Qnum Qden].
  destruct (Z.leb_spec 0 p) as [Hp|Hp]; unfold Qeq; cbn [Qnum Qden];
    rewrite pos_scale.
  - apply (nearest_exact p (Z.pos q) z j); [nia | lia | lia | lia].
  - pose proof (nearest_exact (- p) (Z.pos q) (- z) j) as H.
    rewrite Z.mul_opp_l, H; [ring | nia | lia | lia | lia].
Qed.

(** Whole numbers of magnitude below 2^53 are doubles. *)
Lemma round_whole (y : Q) (n : Z) :
  (Z.abs n < 2 ^ 53)%Z → y == inject_Z n → round y == y.
Proof.
  intros Hn Hy. apply (round_exact y n 0); [done | lia |].
  unfold Qeq in Hy. cbn [Qnum Qden inject_Z] in Hy. lia.
Qed.

(** Below 2^32 a double is never further than 2^-22 from the number it
    rounds. *)
Lemma nearest_close p q :
  (0 <= p)%Z → (0 < q)%Z → (p < 2 ^ 32 * q)%Z →
  (2 ^ 22 * Z.abs (nearest p q * q - p * scale) <= q * scale)%Z.
Proof.
  intros Hp Hq Hpq. unfold nearest. cbv zeta.
  pose proof scale_pos as Hs.
  assert (Hscale : scale = (2 ^ 21 * 2 ^ 1053)%Z).
  { unfold scale. rewrite <- Z.pow_add_r by lia. reflexivity. }
  set (P := (p * scale)%Z).
  assert (Ha0 : (P / q < 2 ^ 1106)%Z).
  { apply Z.div_lt_upper_bound; [lia|].
    replace (2 ^ 1106)%Z with (2 ^ 32 * scale)%Z
      by (unfold scale; rewrite <- Z.pow_add_r by lia; reflexivity).
    subst P. nia. }
  assert (Ha0' : (0 <= P / q)%Z) by (apply Z.div_pos; subst P; nia).
  set (E := Z.max (Z.log2 (P / q) - 52) 0).
  assert (HE : (0 <= E <= 1053)%Z).
  { subst E. destruct (Z.eq_dec (P / q) 0) as [->|Hne]; [cbn; lia|].
    assert (Z.log2 (P / q) < 1106)%Z by (apply Z.log2_lt_pow2; lia). lia. }
  assert (H2E : (0 < 2 ^ E <= 2 ^ 1053)%Z).
  { split; [apply Z.pow_pos_nonneg; lia | apply Z.pow_le_mono_r; lia]. }
  pose proof (rne_close P (q * 2 ^ E) ltac:(nia)) as Hc.
  set (M := rne P (q * 2 ^ E)) in *.
  assert (H1053 : (0 < 2 ^ 1053)%Z) by (apply Z.pow_pos_nonneg; lia).
  assert (H21 : (2 ^ 22 = 2 * 2 ^ 21)%Z) by reflexivity.
  assert (H21' : (0 < 2 ^ 21)%Z) by reflexivity.
  assert (Hov : (M * 2 ^ E <= overflow)%Z).
  { assert (Hov' : (overflow = 2 ^ 1024 * scale)%Z)
      by (unfold overflow, scale; rewrite <- Z.pow_add_r by lia; reflexivity).
    assert (H32 : (2 ^ 32 + 1 <= 2 ^ 1024)%Z).
    { change (2 ^ 1024)%Z with (2 ^ 32 * 2 ^ 992)%Z.
      assert (1 < 2 ^ 992)%Z by (apply Z.pow_gt_1; lia).
      assert (0 < 2 ^ 32)%Z by reflexivity. nia. }
    assert (HMq : (M * 2 ^ E * q <= (2 ^ 32 + 1) * scale * q)%Z).
    { assert (2 ^ E <= scale)%Z by (rewrite Hscale; nia).
      assert (2 * (M * (q * 2 ^ E) - P) <= q * 2 ^ E)%Z by lia.
      subst P. nia. }
    rewrite Hov'. apply Z.mul_le_mono_pos_r with q; [lia|].
    etransitivity; [exact HMq|]. nia. }
  rewrite Z.min_l by exact Hov.
  replace (M * 2 ^ E * q - P)%Z with (M * (q * 2 ^ E) - P)%Z by ring.
  rewrite Hscale, H21.
  clearbody M E P. clear Hov.
  set (d := Z.abs (M * (q * 2 ^ E) - P)) in *.
  assert (0 <= d)%Z by (subst d; lia).
  clearbody d.
  assert (2 * d <= q * 2 ^ 1053)%Z by nia.
  nia.
Qed.

Lemma round_close x :
  (0 <= x)%Q → (x < inject_Z (2 ^ 32))%Q →
  (x - (1 # 4194304) <= round x)%Q ∧ (round x <= x + (1 # 4194304))%Q.
Proof.
  intros Hx Hlt. destruct x as [p q].
  unfold Qle, Qlt in Hx, Hlt. cbn [Qnum Qden inject_Z] in Hx, Hlt.
  pose proof (nearest_close p (Z.pos q) ltac:(lia) ltac:(lia) ltac:(lia)) as Hc.
  pose proof scale_pos as Hs.
  unfold round. cbn [Qnum Qden].
  destruct (Z.leb_spec 0 p); [|lia].
  unfold Qle, Qminus, Qplus, Qopp. cbn [Qnum Qden].
  rewrite !Pos2Z.inj_mul, pos_scale.
  change (2 ^ 22)%Z with 4194304%Z in Hc.
  set (R := nearest p (Z.pos q)) in *. clearbody R.
  set (s := scale) in *. clearbody s.
  set (Q := Z.pos q) in *. assert (0 < Q)%Z by (subst Q; lia). clearbody Q.
  split; nia.
Qed.

End Binary64Facts.

(** * Properties of the device selection *)
Module DeviceSelectorFacts.
Import Binary64 Binary64Facts DeviceSelector.

(** *** The float comparison *)

Lemma float_gt_true a b : float_gt a b = true ↔ (b < a)%Q.
Proof.
  unfold float_gt. rewrite negb_true_iff, <- not_true_iff_false, Qle_bool_iff.
  split; [apply Qnot_le_lt | apply Qlt_not_le].
Qed.

Lemma float_gt_false a b : float_gt a b = false ↔ (a <= b)%Q.
Proof.
  unfold float_gt. rewrite negb_false_iff. apply Qle_bool_iff.
Qed.

Lemma capability_literal_nonneg d : (0 <= capability_literal d)%Q.
Proof.
  unfold capability_literal.
  replace 0%Q with (0 + 0)%Q by reflexivity.
  apply Qplus_le_compat; unfold Qle; simpl; lia.
Qed.

Lemma capability_float_nonneg d : (0 <= capability_float d)%Q.
Proof. apply round_nonneg, capability_literal_nonneg. Qed.

Lemma capability_above_init d : (best_capability scan_init < capability_float d)%Q.
Proof.
  eapply Qlt_le_trans; [| apply capability_float_nonneg]. reflexivity.
Qed.

Lemma decimal_len_single n : (n < 10)%N → decimal_len n = 1.
Proof.
  intros Hn. unfold decimal_len.
  destruct n as [|p]; [reflexivity|].
  do 4 (try destruct p as [p|p|]); try reflexivity; lia.
Qed.

Lemma capability_literal_single d :
  single_digit_minor d →
  capability_literal d = Qmake (Z.of_N (major d) * 10 + Z.of_N (minor d)) 10.
Proof.
  intros Hd. unfold capability_literal.
  rewrite (decimal_len_single _ Hd). unfold Qplus, inject_Z.
  change (Pos.pow 10 (Pos.of_nat 1)) with 10%positive. cbn [Qnum Qden].
  f_equal. lia.
Qed.

(** With a major version that fits a C [int] and a one-digit minor, the
    literals of two versions are at least a tenth apart and each double is
    within 2^-22 of its literal, so the doubles are ordered as the
    versions. *)
Lemma single_digit_float_lt a b :
  int_major a → int_major b → single_digit_minor a → single_digit_minor b →
  (Z.of_N (major a) * 10 + Z.of_N (minor a)
   < Z.of_N (major b) * 10 + Z.of_N (minor b))%Z →
  float_lt a b.
Proof.
  intros Hia Hib Ha Hb Hlt. unfold float_lt, capability_float.
  rewrite (capability_literal_single _ Ha), (capability_literal_single _ Hb).
  unfold int_major, single_digit_minor in *.
  set (ka := (Z.of_N (major a) * 10 + Z.of_N (minor a))%Z) in *.
  set (kb := (Z.of_N (major b) * 10 + Z.of_N (minor b))%Z) in *.
  assert (Hka : (0 <= ka < 10 * 4294967296)%Z) by lia.
  assert (Hkb : (0 <= kb < 10 * 4294967296)%Z) by lia.
  clearbody ka kb.
  destruct (round_close (ka # 10)) as [_ Hup];
    [unfold Qle; cbn; lia | unfold Qlt; cbn; lia |].
  destruct (round_close (kb # 10)) as [Hlow _];
    [unfold Qle; cbn; lia | unfold Qlt; cbn; lia |].
  eapply Qle_lt_trans; [exact Hup|].
  eapply Qlt_le_trans; [|exact Hlow].
  unfold Qminus. unfold Qlt, Qplus, Qopp. cbn [Qnum Qden].
  change (Z.pos (10 * 4194304)) with 41943040%Z. lia.
Qed.

Lemma float_lt_version a b :
  int_major a → int_major b → single_digit_minor a → single_digit_minor b →
  float_lt a b ↔ version_lt a b.
Proof.
  intros Hia Hib Ha Hb. split.
  - intros Hlt. unfold version_lt.
    destruct (Z.lt_trichotomy
                (Z.of_N (major a) * 10 + Z.of_N (minor a))
                (Z.of_N (major b) * 10 + Z.of_N (minor b))) as [H|[H|H]].
    + unfold single_digit_minor in *. lia.
    + exfalso. unfold float_lt, capability_float in Hlt.
      rewrite (capability_literal_single _ Ha), (capability_literal_single _ Hb), H
        in Hlt.
      by apply Qlt_irrefl in Hlt.
    + exfalso. pose proof (single_digit_float_lt b a Hib Hia Hb Ha H) as Hgt.
      unfold float_lt in *. eapply Qlt_irrefl, Qlt_trans; eauto.
  - intros Hlt. apply single_digit_float_lt; try done.
    unfold version_lt, single_digit_minor in *. lia.
Qed.

Lemma float_le_version a b :
  int_major a → int_major b → single_digit_minor a → single_digit_minor b →
  float_le a b ↔ version_le a b.
Proof.
  intros Hia Hib Ha Hb.
  assert (Hnot : float_le a b ↔ ¬ float_lt b a).
  { unfold float_le, float_lt. split; [apply Qle_not_lt | apply Qnot_lt_le]. }
  rewrite Hnot, (float_lt_version b a Hib Hia Hb Ha).
  unfold version_lt, version_le. lia.
Qed.

(** *** The scan when no name matches *)

(** Use the induction hypothesis at the state the loop continues with. *)
Tactic Notation "scan_step" constr(IH) constr(H) "as" simple_intropattern(pat) :=
  match goal with
  | |- context [scan ?i ?rest ?s] => destruct (IH i s H) as pat
  end.

(** Outcome of the scan from index [i] over [devs], none preferred: either
    no device beats the capability held on entry, or the scan ends on the
    earliest device of highest capability, which beats it. *)
Lemma scan_unpreferred devs : ∀ i st,
  Forall (λ d, preferred d = false) devs →
  let r := scan i devs st in
  found_4060 r = found_4060 st
  ∧ logged r = logged st ++ seq i (length devs)
  ∧ ((best_device_index r = best_device_index st
      ∧ best_capability r = best_capability st
      ∧ ∀ j d, devs !! j = Some d →
               (capability_float d <= best_capability st)%Q)
     ∨ (∃ k d, devs !! k = Some d
               ∧ best_device_index r = i + k
               ∧ best_capability r = capability_float d
               ∧ (best_capability st < capability_float d)%Q
               ∧ (∀ j d0, devs !! j = Some d0 → float_le d0 d)
               ∧ (∀ j d0, j < k → devs !! j = Some d0 → float_lt d0 d))).
Proof.
  induction devs as [|d rest IH]; intros i st Hno; cbn zeta.
  - simpl. rewrite app_nil_r. repeat split. left. repeat split.
    intros j d Hj. discriminate.
  - apply Forall_cons in Hno as [Hd Hrest].
    cbn [scan]. unfold preferred in Hd. rewrite Hd. cbn [best_capability found_4060 logged best_device_index].
    destruct (float_gt (capability_float d) (best_capability st)) eqn:Hgt.
    + apply float_gt_true in Hgt.
      scan_step IH Hrest as (Hf & Hl & Hb). cbn zeta in *.
      rewrite Hf, Hl. cbn [best_capability found_4060 logged best_device_index] in *.
      split; [done|]. split; [by rewrite <- app_assoc|].
      right. destruct Hb as [(Hi & Hc & Hall) | (k & d1 & Hk & Hi & Hc & Hlt & Hall & Hbefore)].
      * exists 0, d. rewrite Hi, Hc. repeat split; [lia | done | |].
        -- intros [|j] d0 Hj; simplify_eq/=; [apply Qle_refl | by eapply Hall].
        -- intros j d0 Hj. lia.
      * exists (S k), d1. rewrite Hi, Hc. repeat split; [done | lia | |  |].
        -- by eapply Qlt_trans.
        -- intros [|j] d0 Hj; simplify_eq/=; [by apply Qlt_le_weak | by eapply Hall].
        -- intros [|j] d0 Hjk Hj; simplify_eq/=; [done | eapply Hbefore; [|done]; lia].
    + apply float_gt_false in Hgt.
      scan_step IH Hrest as (Hf & Hl & Hb). cbn zeta in *.
      rewrite Hf, Hl. cbn [best_capability found_4060 logged best_device_index] in *.
      split; [done|]. split; [by rewrite <- app_assoc|].
      destruct Hb as [(Hi & Hc & Hall) | (k & d1 & Hk & Hi & Hc & Hlt & Hall & Hbefore)].
      * left. rewrite Hi, Hc. repeat split.
        intros [|j] d0 Hj; simplify_eq/=; [done | by eapply Hall].
      * right. exists (S k), d1. rewrite Hi, Hc. repeat split; [done | lia | done | |].
        -- intros [|j] d0 Hj; simplify_eq/=; [|by eapply Hall].
           apply Qlt_le_weak. by eapply Qle_lt_trans.
        -- intros [|j] d0 Hjk Hj; simplify_eq/=; [by eapply Qle_lt_trans | eapply Hbefore; [|done]; lia].
Qed.

(** With CUDA available and no preferred name, the selected index is the
    earliest one of highest capability as the code measures it. *)
Lemma select_cuda_unpreferred devs :
  devs ≠ [] →
  Forall (λ d, preferred d = false) devs →
  found_4060 (select_cuda devs) = false
  ∧ logged (select_cuda devs) = seq 0 (length devs)
  ∧ earliest_highest float_le float_lt devs (best_device_index (select_cuda devs)).
Proof.
  intros Hne Hno. unfold select_cuda.
  destruct (scan_unpreferred devs 0 scan_init Hno) as (Hf & Hl & Hb).
  cbn zeta in *. split; [done|]. split; [done|].
  destruct Hb as [(_ & _ & Hall) | (k & d & Hk & Hi & _ & _ & Hall & Hbefore)].
  - destruct devs as [|d rest]; [done|]. exfalso.
    eapply Qlt_not_le; [apply (capability_above_init d) | by apply (Hall 0)].
  - rewrite Hi. exists d. done.
Qed.

(** *** The scan when some name matches *)

Lemma scan_preferred devs : ∀ i st,
  Exists (λ d, preferred d = true) devs →
  ∃ k, first_preferred devs k
       ∧ best_device_index (scan i devs st) = i + k
       ∧ found_4060 (scan i devs st) = true
       ∧ logged (scan i devs st) = logged st ++ seq i (S k).
Proof.
  induction devs as [|d rest IH]; intros i st Hex.
  - by apply Exists_nil in Hex.
  - cbn [scan]. fold (preferred d). destruct (preferred d) eqn:Hd.
    + exists 0. cbn [best_device_index found_4060 logged]. repeat split; [|lia].
      exists d. repeat split; [done|]. intros j d0 Hj. lia.
    + apply Exists_cons in Hex as [Hex|Hex]; [congruence|].
      scan_step IH Hex as (k & (d1 & Hk & Hp & Hbefore) & Hi & Hf & Hl).
      exists (S k). rewrite Hi, Hf, Hl. repeat split; [| lia |].
      * exists d1. repeat split; [done..|].
        intros [|j] d0 Hjk Hj; simplify_eq/=; [done | eapply Hbefore; [|done]; lia].
      * by destruct (float_gt _ _); cbn [logged]; rewrite <- app_assoc.
Qed.

Lemma first_preferred_unique devs i j :
  first_preferred devs i → first_preferred devs j → i = j.
Proof.
  intros (di & Hi & Hpi & Hbi) (dj & Hj & Hpj & Hbj).
  destruct (Nat.lt_trichotomy i j) as [Hlt | [-> | Hlt]]; [|done|].
  - specialize (Hbj _ _ Hlt Hi). congruence.
  - specialize (Hbi _ _ Hlt Hj). congruence.
Qed.

(** Being the first preferred index depends on the names only. *)
Lemma first_preferred_names devs devs0 i :
  name <$> devs0 = name <$> devs →
  first_preferred devs i → first_preferred devs0 i.
Proof.
  intros Hnames (d & Hi & Hp & Hbefore).
  assert (Hlook : ∀ j, name <$> (devs0 !! j) = name <$> (devs !! j)).
  { intros j. by rewrite <- !list_lookup_fmap, Hnames. }
  pose proof (Hlook i) as Hli. rewrite Hi in Hli.
  destruct (devs0 !! i) as [d0|] eqn:Hi0; [|done]. simplify_eq/=.
  exists d0. split; [done|]. split; [|intros j d1 Hj Hj1].
  - unfold preferred in *. congruence.
  - pose proof (Hlook j) as Hlj. rewrite Hj1 in Hlj.
    destruct (devs !! j) as [d2|] eqn:Hj2; [|done]. simplify_eq/=.
    specialize (Hbefore _ _ Hj Hj2). unfold preferred in *. congruence.
Qed.

(** *** The selection as the specification words it *)

(** X22.  Where the float ranks as the version does.  For every non-empty
    device list in which no name contains "4060", every major version fits
    a C [int] and every minor version is a single decimal digit, the
    selector returns the index of the device whose (major, minor)
    capability version is highest, and the earliest such index when several
    devices share it; the preferred flag stays unset and every device is
    examined. *)
Theorem select_cuda_highest_version devs :
  devs ≠ [] →
  Forall (λ d, preferred d = false) devs →
  Forall int_major devs →
  Forall single_digit_minor devs →
  earliest_highest version_le version_lt devs
    (best_device_index (select_cuda devs))
  ∧ found_4060 (select_cuda devs) = false
  ∧ logged (select_cuda devs) = seq 0 (length devs).
Proof.
  intros Hne Hno Hint Hdigits.
  destruct (select_cuda_unpreferred devs Hne Hno) as (Hf & Hl & d & Hi & Hall & Hbefore).
  split; [|done].
  assert (Hsd : ∀ j d0, devs !! j = Some d0 → single_digit_minor d0).
  { intros j d0 Hj. eapply Forall_lookup_1; eauto. }
  assert (Him : ∀ j d0, devs !! j = Some d0 → int_major d0).
  { intros j d0 Hj. eapply Forall_lookup_1; eauto. }
  exists d. split; [done|]. split.
  - intros j d0 Hj. apply float_le_version; eauto.
  - intros j d0 Hlt Hj. apply float_lt_version; eauto.
Qed.

Lemma select_cuda_highest_version_witness :
  let devs := [pascal_6_1; ada_8_9; hopper_9_0; hopper_9_0] in
  best_device_index (select_cuda devs) = 2
  ∧ earliest_highest version_le version_lt devs 2.
Proof.
  intros devs. split; [vm_compute; reflexivity|].
  refine (proj1 (select_cuda_highest_version devs _ _ _ _)).
  - discriminate.
  - repeat constructor.
  - repeat constructor.
  - repeat constructor.
Defined.

(** C1.  The code misses the claim on a minor version of two digits.  It
    ranks a device by the float read from "major.minor", so capability 8.10
    reads as 8.1 and loses against 8.9: with no preferred name in the list,
    index 0 is selected although device 1 has the strictly higher
    (major, minor) version, against the comment "Fallback to highest
    capability" in the loop. *)
Lemma select_cuda_two_digit_minor :
  let devs := [ada_8_9; future_8_10] in
  devs ≠ []
  ∧ Forall (λ d, preferred d = false) devs
  ∧ best_device_index (select_cuda devs) = 0
  ∧ version_lt ada_8_9 future_8_10
  ∧ ¬ earliest_highest version_le version_lt devs
        (best_device_index (select_cuda devs)).
Proof.
  cbn zeta.
  assert (Hsel : best_device_index (select_cuda [ada_8_9; future_8_10]) = 0)
    by (vm_compute; reflexivity).
  split; [discriminate|]. split; [repeat constructor|].
  split; [exact Hsel|]. split; [right; split; [reflexivity | reflexivity]|].
  rewrite Hsel. clear Hsel.
  intros (d & Hd & Hall & _). simplify_eq/=.
  destruct (Hall 1 future_8_10 eq_refl) as [Hlt | [_ Hle]]; simpl in *; lia.
Qed.

Lemma first_preferred_Exists devs i :
  first_preferred devs i → Exists (λ d, preferred d = true) devs.
Proof.
  intros (d & Hi & Hp & _). apply Exists_exists. exists d.
  split; [by eapply list_elem_of_lookup_2 | done].
Qed.

(** C2.  For every device list with at least one name containing "4060",
    the selector returns the index of the first such device; the scan stops
    there (exactly the devices up to that index are examined), and the
    result depends on the names alone, not on any capability version. *)
Theorem select_cuda_first_preferred devs :
  Exists (λ d, preferred d = true) devs →
  first_preferred devs (best_device_index (select_cuda devs))
  ∧ found_4060 (select_cuda devs) = true
  ∧ logged (select_cuda devs) = seq 0 (S (best_device_index (select_cuda devs)))
  ∧ ∀ devs0, name <$> devs0 = name <$> devs →
             best_device_index (select_cuda devs0)
             = best_device_index (select_cuda devs).
Proof.
  intros Hex. unfold select_cuda.
  destruct (scan_preferred devs 0 scan_init Hex) as (k & Hk & Hi & Hf & Hl).
  rewrite Hi, Hf, Hl. repeat split; [done|].
  intros devs0 Hnames.
  pose proof (first_preferred_names _ _ _ Hnames Hk) as Hk0.
  destruct (scan_preferred devs0 0 scan_init (first_preferred_Exists _ _ Hk0))
    as (k0 & Hk0' & Hi0 & _).
  rewrite Hi0. f_equal. by eapply first_preferred_unique.
Qed.

Lemma select_cuda_first_preferred_witness :
  let devs := [hopper_9_0; ada_4060; ada_8_9; ada_4060] in
  best_device_index (select_cuda devs) = 1
  ∧ first_preferred devs (best_device_index (select_cuda devs)).
Proof.
  intros devs. split; [reflexivity|].
  refine (proj1 (select_cuda_first_preferred devs _)).
  apply Exists_cons_tl, Exists_cons_hd. reflexivity.
Defined.

(** *** Further properties of the scan *)

(** Either some device is preferred or none is. *)
Lemma preferred_cases devs :
  Exists (λ d, preferred d = true) devs ∨ Forall (λ d, preferred d = false) devs.
Proof.
  induction devs as [|d rest [IH|IH]].
  - right. constructor.
  - left. by apply Exists_cons_tl.
  - destruct (preferred d) eqn:Hd.
    + left. by apply Exists_cons_hd.
    + right. by constructor.
Qed.

(** X1.  Whatever the names and versions, the index selected from a
    non-empty device list is the index of one of its devices, so the
    [torch.cuda.get_device_name(best_device_index)] that follows the loop
    asks for a device that exists. *)
Theorem select_cuda_in_range devs :
  devs ≠ [] →
  best_device_index (select_cuda devs) < length devs
  ∧ is_Some (devs !! best_device_index (select_cuda devs)).
Proof.
  intros Hne.
  assert (Hsome : is_Some (devs !! best_device_index (select_cuda devs))).
  { destruct (preferred_cases devs) as [Hex|Hno].
    - destruct (scan_preferred devs 0 scan_init Hex) as (k & (d & Hk & _) & Hi & _).
      unfold select_cuda. rewrite Hi. by exists d.
    - destruct (select_cuda_unpreferred devs Hne Hno) as (_ & _ & d & Hi & _).
      by exists d. }
  split; [|done]. by apply lookup_lt_is_Some.
Qed.

Lemma select_cuda_in_range_witness :
  best_device_index (select_cuda [pascal_6_1; future_8_10; ada_8_9]) < 3.
Proof.
  refine (proj1 (select_cuda_in_range [pascal_6_1; future_8_10; ada_8_9] _)).
  discriminate.
Defined.

(** X2.  The flag [found_4060] ends up set exactly when some device name
    contains "4060"; when it is not set, the scan has examined every
    device. *)
Theorem found_4060_iff devs :
  (found_4060 (select_cuda devs) = true ↔ Exists (λ d, preferred d = true) devs)
  ∧ (found_4060 (select_cuda devs) = false →
     logged (select_cuda devs) = seq 0 (length devs)).
Proof.
  destruct (preferred_cases devs) as [Hex|Hno].
  - destruct (scan_preferred devs 0 scan_init Hex) as (k & _ & _ & Hf & _).
    unfold select_cuda. rewrite Hf. split; [done | discriminate].
  - destruct (scan_unpreferred devs 0 scan_init Hno) as (Hf & Hl & _).
    cbn zeta in *. unfold select_cuda. rewrite Hf. cbn [found_4060 scan_init].
    split; [|done]. split; [discriminate|].
    intros Hex. apply Exists_exists in Hex as (d & Hd & Hp).
    rewrite Forall_forall in Hno. specialize (Hno d Hd). congruence.
Qed.

Lemma found_4060_iff_witness :
  found_4060 (select_cuda [hopper_9_0; ada_4060]) = true
  ∧ logged (select_cuda [hopper_9_0; ada_8_9]) = [0; 1].
Proof.
  split.
  - apply (proj1 (found_4060_iff [hopper_9_0; ada_4060])).
    apply Exists_cons_tl, Exists_cons_hd. reflexivity.
  - apply (proj2 (found_4060_iff [hopper_9_0; ada_8_9])). reflexivity.
Defined.

(** X3.  With no preferred name, for every non-empty device list and
    whatever the number of digits of the minor versions, the selected
    device is the earliest one whose capability, the float read from
    "major.minor", is highest, and [best_capability] ends as the capability
    of that device. *)
Theorem select_cuda_highest_float devs :
  devs ≠ [] →
  Forall (λ d, preferred d = false) devs →
  ∃ d, devs !! best_device_index (select_cuda devs) = Some d
       ∧ best_capability (select_cuda devs) = capability_float d
       ∧ (∀ j d0, devs !! j = Some d0 → float_le d0 d)
       ∧ (∀ j d0, j < best_device_index (select_cuda devs) →
                  devs !! j = Some d0 → float_lt d0 d).
Proof.
  intros Hne Hno. unfold select_cuda.
  destruct (scan_unpreferred devs 0 scan_init Hno) as (_ & _ & Hb). cbn zeta in Hb.
  destruct Hb as [(_ & _ & Hall) | (k & d & Hk & Hi & Hc & _ & Hall & Hbefore)].
  - destruct devs as [|d rest]; [done|]. exfalso.
    eapply Qlt_not_le; [apply (capability_above_init d) | by apply (Hall 0)].
  - rewrite Hi, Hc. exists d. done.
Qed.

Lemma select_cuda_highest_float_witness :
  ∃ d, [future_8_10; ada_8_9; pascal_6_1]
       !! best_device_index (select_cuda [future_8_10; ada_8_9; pascal_6_1]) = Some d
       ∧ best_capability (select_cuda [future_8_10; ada_8_9; pascal_6_1])
         = capability_float d.
Proof.
  destruct (select_cuda_highest_float [future_8_10; ada_8_9; pascal_6_1])
    as (d & Hd & Hc & _).
  - discriminate.
  - repeat constructor.
  - exists d. split; [exact Hd | exact Hc].
Defined.

(** *** The decimal reading of a version *)

Lemma of_lu_bound d :
  (DecimalPos.Unsigned.of_lu d < 10 ^ N.of_nat (Decimal.nb_digits d))%N.
Proof.
  induction d; cbn [DecimalPos.Unsigned.of_lu Decimal.nb_digits];
    rewrite ?Nat2N.inj_succ, ?N.pow_succ_r'; lia.
Qed.

(** A number is below the power of ten of its number of digits. *)
Lemma decimal_len_bound n : (n < 10 ^ N.of_nat (decimal_len n))%N.
Proof.
  unfold decimal_len.
  rewrite <- (DecimalN.Unsigned.of_to n) at 1.
  unfold N.of_uint. rewrite DecimalPos.Unsigned.of_uint_alt.
  rewrite <- (DecimalFacts.nb_digits_rev (N.to_uint n)). apply of_lu_bound.
Qed.

Lemma decimal_len_pos n : decimal_len n ≠ 0.
Proof.
  unfold decimal_len. intros H. apply DecimalFacts.nb_digits_0 in H.
  destruct n as [|p]; [discriminate|].
  by apply (DecimalPos.Unsigned.to_uint_nonnil p).
Qed.

Lemma denominator_pow n :
  Z.pos (Pos.pow 10 (Pos.of_nat (decimal_len n)))
  = Z.of_N (10 ^ N.of_nat (decimal_len n)).
Proof.
  pose proof (decimal_len_pos n) as Hk.
  rewrite Pos2Z.inj_pow, N2Z.inj_pow, nat_N_Z. f_equal.
  destruct (decimal_len n) as [|k]; [done|]. lia.
Qed.

(** The literal lies between the major version and the next whole number,
    and stays a millionth below it when the minor has at most six digits. *)
Lemma capability_literal_bounds d :
  (inject_Z (Z.of_N (major d)) <= capability_literal d)%Q
  ∧ (capability_literal d < inject_Z (Z.of_N (major d) + 1))%Q
  ∧ (short_minor d →
     (capability_literal d <= inject_Z (Z.of_N (major d) + 1) - (1 # 1000000))%Q).
Proof.
  unfold capability_literal, short_minor, Qminus.
  unfold Qle, Qlt, Qplus, Qopp, inject_Z. cbn [Qnum Qden].
  rewrite ?Pos.mul_1_l, ?Pos.mul_1_r, ?Pos2Z.inj_mul, !denominator_pow.
  pose proof (decimal_len_bound (minor d)) as Hm.
  assert (Hpow : (decimal_len (minor d) ≤ 6)%nat →
                 (Z.of_N (10 ^ N.of_nat (decimal_len (minor d))) <= 1000000)%Z).
  { intros Hlen. rewrite N2Z.inj_pow, nat_N_Z.
    change 1000000%Z with (10 ^ 6)%Z. apply Z.pow_le_mono_r; lia. }
  set (P := (10 ^ N.of_nat (decimal_len (minor d)))%N) in *. clearbody P.
  split; [nia|]. split; [nia|]. intros Hlen. specialize (Hpow Hlen). nia.
Qed.

(** With major versions that fit a C [int] and a minor of at most six
    digits on the lower side, the higher major version has the higher
    float: the double stays within 2^-22 of its literal, less than the
    millionth that separates the lower literal from the next whole number. *)
Lemma major_lt_float_lt a b :
  int_major a → int_major b → short_minor a →
  (major a < major b)%N → float_lt a b.
Proof.
  intros Hia Hib Hsa Hlt. unfold float_lt, capability_float.
  destruct (capability_literal_bounds a) as (Hla & Hua & Hsa').
  destruct (capability_literal_bounds b) as (Hlb & Hub & _).
  specialize (Hsa' Hsa). unfold int_major in *.
  assert (Hmaj : (inject_Z (Z.of_N (major a) + 1) <= inject_Z (Z.of_N (major b)))%Q).
  { rewrite <- Zle_Qle. lia. }
  assert (H32 : ∀ M : Z, (M <= 2147483648)%Z → (inject_Z M < inject_Z (2 ^ 32))%Q).
  { intros M HM. rewrite <- Zlt_Qlt. change (2 ^ 32)%Z with 4294967296%Z. lia. }
  assert (H0 : ∀ M : Z, (0 <= M)%Z → (0 <= inject_Z M)%Q).
  { intros M HM. change 0%Q with (inject_Z 0). rewrite <- Zle_Qle. lia. }
  pose proof (H0 (Z.of_N (major a)) ltac:(lia)) as H0a.
  pose proof (H0 (Z.of_N (major b)) ltac:(lia)) as H0b.
  pose proof (H32 (Z.of_N (major a) + 1)%Z ltac:(lia)) as H32a.
  pose proof (H32 (Z.of_N (major b) + 1)%Z ltac:(lia)) as H32b.
  destruct (round_close (capability_literal a)) as [_ Hup]; [lra | lra |].
  destruct (round_close (capability_literal b)) as [Hlow _]; [lra | lra |].
  lra.
Qed.

(** X4.  With no preferred name, when every major version fits the C [int]
    the CUDA runtime keeps it in and every minor version has at most six
    digits, the device selected from a non-empty list has the highest major
    version of the list. *)
Theorem select_cuda_highest_major devs :
  devs ≠ [] →
  Forall (λ d, preferred d = false) devs →
  Forall int_major devs →
  Forall short_minor devs →
  ∃ sel, devs !! best_device_index (select_cuda devs) = Some sel
         ∧ ∀ d, d ∈ devs → (major d <= major sel)%N.
Proof.
  intros Hne Hno Hint Hshort.
  destruct (select_cuda_unpreferred devs Hne Hno) as (_ & _ & sel & Hi & Hall & _).
  exists sel. split; [done|]. intros d Hd.
  assert (Hsel : sel ∈ devs) by (by eapply list_elem_of_lookup_2).
  rewrite Forall_forall in Hint, Hshort.
  apply list_elem_of_lookup in Hd as [j Hj]. specialize (Hall _ _ Hj).
  assert (Hd : d ∈ devs) by (by eapply list_elem_of_lookup_2).
  destruct (N.le_gt_cases (major d) (major sel)) as [Hle|Hgt]; [done|].
  exfalso. eapply Qlt_not_le; [apply (major_lt_float_lt sel d) | exact Hall]; eauto.
Qed.

Lemma select_cuda_highest_major_witness :
  ∃ sel, [ada_8_9; future_8_10; hopper_9_0; pascal_6_1]
         !! best_device_index (select_cuda [ada_8_9; future_8_10; hopper_9_0; pascal_6_1])
         = Some sel
         ∧ (major future_8_10 <= major sel)%N.
Proof.
  destruct (select_cuda_highest_major [ada_8_9; future_8_10; hopper_9_0; pascal_6_1])
    as (sel & Hsel & Hall).
  - discriminate.
  - repeat constructor.
  - repeat constructor.
  - repeat constructor.
  - exists sel. split; [exact Hsel|]. apply Hall.
    apply list_elem_of_further, list_elem_of_here.
Defined.

(** *** The device string and the name test *)

Lemma str_of_N_inj n1 n2 : str_of_N n1 = str_of_N n2 → n1 = n2.
Proof.
  unfold str_of_N. intros H.
  assert (Hnil : ∀ n, N.to_uint n ≠ Decimal.Nil).
  { intros [|q]; [discriminate | apply DecimalPos.Unsigned.to_uint_nonnil]. }
  apply DecimalN.Unsigned.to_uint_inj.
  pose proof (NilZero.usu _ (Hnil n1)) as H1.
  pose proof (NilZero.usu _ (Hnil n2)) as H2.
  rewrite H in H1. congruence.
Qed.

(** X5.  The device string identifies the selected index: two device lists
    yield the same [DEVICE] exactly when the scan selects the same index in
    both, and the string of a CUDA device is never the CPU fallback. *)
Theorem DEVICE_identifies_index devs1 devs2 :
  (DEVICE (Some devs1) = DEVICE (Some devs2)
   ↔ best_device_index (select_cuda devs1) = best_device_index (select_cuda devs2))
  ∧ DEVICE (Some devs1) ≠ DEVICE None.
Proof.
  unfold DEVICE. split; [split|].
  - intros [= H]. apply str_of_N_inj in H. lia.
  - by intros ->.
  - discriminate.
Qed.

Lemma append_cons c a b : String c a +:+ b = String c (a +:+ b).
Proof. reflexivity. Qed.

Lemma prefix_append a : ∀ b,
  String.prefix a b = true ↔ ∃ post, b = a +:+ post.
Proof.
  induction a as [|c a IH]; intros b.
  - split; [intros _; by exists b | by destruct b].
  - destruct b as [|c0 b]; cbn [String.prefix String.append].
    + split; [done | by intros [? ?]].
    + destruct (ascii_dec c c0) as [->|Hne].
      * rewrite IH. split; intros [post H]; exists post;
          rewrite append_cons in *; congruence.
      * split; [done|]. intros [post H]. rewrite append_cons in H. congruence.
Qed.

(** X6.  The name test of the scan is the substring test: [needle in hay]
    holds exactly when [hay] is some text, then [needle], then some text. *)
Theorem str_in_substring needle hay :
  str_in needle hay = true ↔ ∃ pre post, hay = pre +:+ needle +:+ post.
Proof.
  split.
  - induction hay as [|c rest IH]; cbn [str_in]; rewrite orb_true_iff.
    + intros [H|H]; [|done]. apply prefix_append in H as [post ->].
      by exists "", post.
    + intros [H|H].
      * apply prefix_append in H as [post ->]. by exists "", post.
      * destruct (IH H) as (pre & post & ->). by exists (String c pre), post.
  - intros (pre & post & ->). induction pre as [|c pre IH].
    + change ("" +:+ needle +:+ post) with (needle +:+ post).
      assert (Hp : String.prefix needle (needle +:+ post) = true)
        by (apply prefix_append; by exists post).
      destruct (needle +:+ post); cbn [str_in]; by rewrite Hp.
    + rewrite append_cons. cbn [str_in]. rewrite IH. apply orb_true_r.
Qed.

End DeviceSelectorFacts.

(** * Properties of the uptime string *)
Module UptimeFacts.
Import Binary64 Binary64Facts Uptime.

Lemma float_gt_inject_Z (z : Z) : float_gt (inject_Z z) 0 = (0 <? z)%Z.
Proof.
  unfold float_gt, Qle_bool. cbn [Qnum Qden inject_Z].
  rewrite Z.mul_1_r, Z.mul_0_l, Z.ltb_antisym. reflexivity.
Qed.

Lemma int_inject_Z (z : Z) : int (inject_Z z) = z.
Proof. unfold int. cbn [Qnum Qden inject_Z]. apply Z.quot_1_r. Qed.

Lemma int_floor (x : Q) : (0 <= Qnum x)%Z → int x = Qfloor x.
Proof.
  intros Hx. destruct x as [a b]. unfold int, Qfloor. cbn [Qnum Qden] in *.
  apply Z.quot_div_nonneg; lia.
Qed.

(** [int] truncates the number, whatever fraction writes it. *)
Lemma int_floor_nonneg (x : Q) : (0 <= x)%Q → int x = Qfloor x.
Proof.
  intros Hx. apply int_floor. unfold Qle in Hx. cbn in Hx. lia.
Qed.

Lemma int_comp_nonneg (x y : Q) : (0 <= y)%Q → x == y → int x = int y.
Proof.
  intros Hy Hxy. rewrite !int_floor_nonneg; [by apply Qfloor_comp | done |].
  by rewrite Hxy.
Qed.

Lemma nonzero_false x : nonzero x = false ↔ x == 0.
Proof. unfold nonzero. rewrite negb_false_iff. apply Qeq_bool_iff. Qed.

Lemma nonzero_true x : nonzero x = true ↔ ¬ x == 0.
Proof.
  unfold nonzero. rewrite negb_true_iff, <- not_true_iff_false.
  by rewrite Qeq_bool_iff.
Qed.

Lemma negative_true x : negative x = true ↔ (x < 0)%Q.
Proof.
  unfold negative. rewrite negb_true_iff, <- not_true_iff_false, Qle_bool_iff.
  split; [apply Qnot_le_lt | apply Qlt_not_le].
Qed.

Lemma negative_false x : negative x = false ↔ (0 <= x)%Q.
Proof. unfold negative. rewrite negb_false_iff. apply Qle_bool_iff. Qed.

(** Truncating and flooring [x / p]: they agree unless [x] is negative and
    not a multiple of [p], where truncation is one above. *)
Lemma int_div_floor (x : Q) (p : positive) :
  let k := (Qfloor x / Z.pos p)%Z in
  let T := int (x / (Z.pos p # 1)) in
  (inject_Z (Z.pos p * k) <= x)%Q
  ∧ (x < inject_Z (Z.pos p * k + Z.pos p))%Q
  ∧ ((0 <= x)%Q → T = k)
  ∧ ((x < 0)%Q →
     (x == inject_Z (Z.pos p * k) ∧ T = k)
     ∨ (¬ x == inject_Z (Z.pos p * k) ∧ T = (k + 1)%Z)).
Proof.
  destruct x as [a b]. cbv zeta.
  unfold int, Qfloor, Qdiv, Qinv, Qmult, Qle, Qlt, Qeq, inject_Z.
  cbn [Qnum Qden]. rewrite !Z.mul_1_r, Pos2Z.inj_mul, Z.div_div by lia.
  set (D := (Z.pos b * Z.pos p)%Z).
  assert (HD : (0 < D)%Z) by (subst D; lia).
  pose proof (Z.div_mod a D ltac:(lia)) as Hdm.
  pose proof (Z.mod_pos_bound a D HD) as Hr.
  set (k := (a / D)%Z) in *. set (r := (a mod D)%Z) in *.
  split; [subst D; nia|]. split; [subst D; nia|]. split.
  - intros Ha. rewrite Z.quot_div_nonneg by lia. reflexivity.
  - intros Ha.
    assert (Hq : Z.quot a D = (- ((- a) / D))%Z).
    { rewrite <- (Z.opp_involutive a) at 1.
      rewrite Z.quot_opp_l by lia. f_equal. apply Z.quot_div_nonneg; lia. }
    rewrite Hq.
    destruct (Z.eq_dec r 0%Z) as [Hr0|Hr0].
    + left. split; [subst D; nia|].
      rewrite Z.div_opp_l_z by (fold r; lia). fold k. lia.
    + right. split; [subst D; nia|].
      rewrite Z.div_opp_l_nz by (fold r; lia). fold k. lia.
Qed.

(** [divmod] by a positive whole number [p], for [x] in range: the quotient
    is the whole number [floor x / p], and the whole part of the remainder
    is [floor x mod p], provided, for a negative [x], that the remainder
    [x - p * (floor x / p)] is a double. *)
Lemma divmod_exact (x : Q) (p : positive) :
  (Z.pos p <= 60)%Z →
  in_range x →
  let k := (Qfloor x / Z.pos p)%Z in
  ((x < 0)%Q → ∀ y, y == x - inject_Z (Z.pos p * k) → round y == y) →
  fst (divmod x (Z.pos p # 1)) = inject_Z k
  ∧ int (snd (divmod x (Z.pos p # 1))) = (Qfloor x mod Z.pos p)%Z.
Proof.
  intros Hp [Hlo Hhi] k Hadj.
  destruct (int_div_floor x p) as (Hkx & Hxk & Hpos & Hneg).
  fold k in Hkx, Hxk, Hpos, Hneg.
  set (w := Z.pos p # 1) in *.
  set (T := int (x / w)) in *.
  set (r := (x - inject_Z (Z.pos p * k))%Q).
  assert (Hw : w == inject_Z (Z.pos p)) by reflexivity.
  assert (Hr0 : (0 <= r)%Q) by (subst r; lra).
  assert (Hrp : (r < inject_Z (Z.pos p))%Q).
  { subst r. rewrite inject_Z_plus in Hxk. lra. }
  (* the floor of the remainder *)
  assert (Hfloor_r : Qfloor r = (Qfloor x mod Z.pos p)%Z).
  { subst r.
    assert (Hx : x - inject_Z (Z.pos p * k) == x + inject_Z (- (Z.pos p * k)))
      by (rewrite inject_Z_opp; ring).
    rewrite (Qfloor_comp _ _ Hx).
    destruct x as [a b]. unfold Qfloor, Qplus, inject_Z. cbn [Qnum Qden].
    rewrite Z.mul_1_r, Pos.mul_1_r, Z.div_add by lia.
    subst k. unfold Qfloor.
    pose proof (Z.div_mod (a / Z.pos b) (Z.pos p) ltac:(lia)). lia. }
  (* the whole numbers on the way are in range *)
  assert (Hx53 : (- 2 ^ 52 <= Qfloor x < 2 ^ 53)%Z).
  { split.
    - rewrite <- (Qfloor_Z (- 2 ^ 52)). by apply Qfloor_resp_le.
    - apply Z.le_lt_trans with (Qfloor x); [lia|].
      rewrite Zlt_Qlt. eapply Qle_lt_trans; [apply Qfloor_le | done]. }
  assert (Hk53 : (Z.abs k < 2 ^ 53)%Z).
  { subst k. pose proof (Z.div_mod (Qfloor x) (Z.pos p) ltac:(lia)) as Hdm.
    pose proof (Z.mod_pos_bound (Qfloor x) (Z.pos p) ltac:(lia)).
    assert (2 ^ 53 = 9007199254740992)%Z by reflexivity.
    assert (2 ^ 52 = 4503599627370496)%Z by reflexivity. nia. }
  assert (HT : (T = k ∧ (0 <= r)%Q) ∨ (T = (k + 1)%Z ∧ (x < 0)%Q ∧ ¬ r == 0)).
  { destruct (Qlt_le_dec x 0) as [Hx|Hx].
    - destruct (Hneg Hx) as [[_ ?]|[Hne ?]]; [by left|].
      right. split; [done|]. split; [done|]. subst r. intros Hr0'. apply Hne. lra.
    - left. split; [by apply Hpos | done]. }
  assert (HpT : (Z.abs (Z.pos p * T) < 2 ^ 53)%Z).
  { assert (2 ^ 53 = 9007199254740992)%Z by reflexivity.
    assert (2 ^ 52 = 4503599627370496)%Z by reflexivity.
    assert (Hkx' : (Z.pos p * k <= Qfloor x)%Z).
    { rewrite <- (Qfloor_Z (Z.pos p * k)). by apply Qfloor_resp_le. }
    assert (Qfloor x < Z.pos p * k + Z.pos p)%Z.
    { rewrite Zlt_Qlt. eapply Qle_lt_trans; [apply Qfloor_le | done]. }
    destruct HT as [[-> _]|(-> & Hx & _)].
    - destruct (Z.le_gt_cases 0 k); nia.
    - assert (Hx' : (Qfloor x < 0)%Z).
      { rewrite Zlt_Qlt. eapply Qle_lt_trans; [apply Qfloor_le | done]. }
      assert (k < 0)%Z by (subst k; apply Z.div_lt_upper_bound; lia).
      nia. }
  assert (HT53 : (Z.abs T < 2 ^ 53)%Z) by nia.
  (* the remainder and the rounded quotient before the sign is fixed *)
  assert (Hrem : fmod x w == x - inject_Z (Z.pos p * T)).
  { unfold fmod. fold T. rewrite inject_Z_mult, Hw. ring. }
  assert (Hsub : fsub x (fmod x w) == inject_Z (Z.pos p * T)).
  { unfold fsub. rewrite (round_whole _ (Z.pos p * T)); [|done|]; rewrite Hrem; ring. }
  assert (Hquo : fdiv (fsub x (fmod x w)) w == inject_Z T).
  { assert (Hq : fsub x (fmod x w) / w == inject_Z T).
    { rewrite Hsub, inject_Z_mult, Hw. field.
      unfold Qeq; cbn; lia. }
    unfold fdiv. by rewrite (round_whole _ T). }
  unfold divmod. fold w.
  set (rem0 := fmod x w) in *. set (quo0 := fdiv (fsub x rem0) w) in *.
  assert (Hnegw : negative w = false) by reflexivity.
  assert (Hsucc : inject_Z (Z.pos p * (k + 1))
                  == inject_Z (Z.pos p * k) + inject_Z (Z.pos p)).
  { rewrite <- inject_Z_plus. apply inject_Z_injective. ring. }
  rewrite Hnegw. cbn [xorb].
  (* the remainder and the quotient once the sign is fixed *)
  assert (Hfixed : ∃ rem quo,
    (if nonzero rem0
     then if negative rem0 then (fadd rem0 w, fsub quo0 1) else (rem0, quo0)
     else (0%Q, quo0)) = (rem, quo)
    ∧ rem == r ∧ quo == inject_Z k).
  { destruct (nonzero rem0) eqn:Hnz.
    - apply nonzero_true in Hnz.
      destruct (negative rem0) eqn:Hng.
      + apply negative_true in Hng.
        destruct HT as [[HTk ?]|(HTk & Hx & Hne)].
        { exfalso. rewrite Hrem, HTk in Hng. subst r. lra. }
        eexists _, _. split; [reflexivity|]. split.
        * assert (Heq : rem0 + w == r).
          { subst r. rewrite Hrem, HTk, Hsucc, Hw. ring. }
          unfold fadd. by rewrite (Hadj Hx _ Heq).
        * unfold fsub.
          assert (Hq1 : quo0 - 1 == inject_Z k).
          { rewrite Hquo, HTk, inject_Z_plus. ring. }
          by rewrite (round_whole _ k).
      + apply negative_false in Hng.
        destruct HT as [[HTk ?]|(HTk & Hx & Hne)].
        * eexists _, _. split; [reflexivity|]. split.
          -- rewrite Hrem, HTk. reflexivity.
          -- by rewrite Hquo, HTk.
        * exfalso. rewrite Hrem, HTk, Hsucc in Hng. subst r. lra.
    - apply nonzero_false in Hnz.
      destruct HT as [[HTk ?]|(HTk & Hx & Hne)].
      + eexists _, _. split; [reflexivity|]. split.
        * rewrite Hrem, HTk in Hnz. subst r. by rewrite Hnz.
        * by rewrite Hquo, HTk.
      + exfalso. rewrite Hrem, HTk, Hsucc in Hnz. subst r. lra. }
  destruct Hfixed as (rem & quo & -> & Hremr & Hquok).
  cbn [fst snd]. split.
  - destruct (nonzero quo) eqn:Hnz.
    + rewrite (Qfloor_comp _ _ Hquok), Qfloor_Z.
      assert (Hz : fsub quo (inject_Z k) == 0).
      { unfold fsub. rewrite (round_whole _ 0); [|done|]; rewrite Hquok; ring. }
      assert (Hgt : float_gt (fsub quo (inject_Z k)) 0.5 = false).
      { unfold float_gt. rewrite negb_false_iff. apply Qle_bool_iff.
        rewrite Hz. done. }
      by rewrite Hgt.
    + apply nonzero_false in Hnz. rewrite Hquok in Hnz.
      unfold Qeq in Hnz. cbn in Hnz. rewrite Z.mul_1_r in Hnz. by rewrite Hnz.
  - rewrite (int_comp_nonneg rem r); [|done..].
    by rewrite int_floor_nonneg.
Qed.

Lemma in_range_floor x : in_range x → (- 2 ^ 52 <= Qfloor x < 2 ^ 53)%Z.
Proof.
  intros [Hlo Hhi]. split.
  - rewrite <- (Qfloor_Z (- 2 ^ 52)). by apply Qfloor_resp_le.
  - rewrite Zlt_Qlt. eapply Qle_lt_trans; [apply Qfloor_le | done].
Qed.

Lemma in_range_whole n : (- 2 ^ 52 <= n < 2 ^ 53)%Z → in_range (inject_Z n).
Proof. intros [? ?]. split; [by rewrite <- Zle_Qle | by rewrite <- Zlt_Qlt]. Qed.

(** On whole numbers in range [divmod] is the division with remainder of
    the integers. *)
Lemma divmod_whole (n : Z) (p : positive) :
  (Z.pos p <= 60)%Z → (- 2 ^ 52 <= n < 2 ^ 53)%Z →
  fst (divmod (inject_Z n) (Z.pos p # 1)) = inject_Z (n / Z.pos p)
  ∧ int (snd (divmod (inject_Z n) (Z.pos p # 1))) = (n mod Z.pos p)%Z.
Proof.
  intros Hp Hn.
  destruct (divmod_exact (inject_Z n) p Hp (in_range_whole n Hn)) as [Hq Hr].
  - intros _ y Hy. rewrite Qfloor_Z in Hy.
    apply (round_whole y (n - Z.pos p * (n / Z.pos p))).
    + pose proof (Z.div_mod n (Z.pos p) ltac:(lia)).
      pose proof (Z.mod_pos_bound n (Z.pos p) ltac:(lia)).
      assert (2 ^ 53 = 9007199254740992)%Z by reflexivity. lia.
    + rewrite Hy. unfold Zminus. rewrite inject_Z_plus, inject_Z_opp. ring.
  - by rewrite Qfloor_Z in Hq, Hr.
Qed.

(** What the three [divmod]s leave in [d], [h], [m], [s], for a duration in
    range whose seconds, when it is negative, are a double. *)
Lemma uptime_str_whole (x : Q) :
  in_range x →
  ((x < 0)%Q →
   ∀ y, y == x - inject_Z (60 * (Qfloor x / 60)) → round y == y) →
  let t := Qfloor x in
  uptime_str x =
    if (0 <? t / 86400)%Z
    then with_days (t / 86400) (t / 3600 mod 24) (t / 60 mod 60) (t mod 60)
    else without_days (t / 3600 mod 24) (t / 60 mod 60) (t mod 60).
Proof.
  intros Hx Hadj t. subst t. unfold uptime_str.
  pose proof (in_range_floor x Hx) as Ht.
  assert (H53 : (2 ^ 53 = 9007199254740992)%Z) by reflexivity.
  assert (H52 : (2 ^ 52 = 4503599627370496)%Z) by reflexivity.
  destruct (divmod_exact x 60 ltac:(lia) Hx Hadj) as (Hm & Hs).
  change (Z.pos 60 # 1) with 60%Q in *.
  remember (Qfloor x) as t eqn:Heqt.
  destruct (divmod x 60) as [m s]. cbn [fst snd] in *. subst m.
  assert (Ht60 : (- 2 ^ 52 <= t / 60 < 2 ^ 53)%Z).
  { pose proof (Z.div_mod t 60 ltac:(lia)).
    pose proof (Z.mod_pos_bound t 60 ltac:(lia)). lia. }
  destruct (divmod_whole (t / 60) 60 ltac:(lia) Ht60) as (Hh & Hm).
  change (Z.pos 60 # 1) with 60%Q in *.
  destruct (divmod (inject_Z (t / 60)) 60) as [h m]. cbn [fst snd] in *. subst h.
  assert (Ht3600 : (- 2 ^ 52 <= t / 60 / 60 < 2 ^ 53)%Z).
  { pose proof (Z.div_mod (t / 60) 60 ltac:(lia)).
    pose proof (Z.mod_pos_bound (t / 60) 60 ltac:(lia)). lia. }
  destruct (divmod_whole (t / 60 / 60) 24 ltac:(lia) Ht3600) as (Hd & Hh).
  change (Z.pos 24 # 1) with 24%Q in *.
  destruct (divmod (inject_Z (t / 60 / 60)) 24) as [d h]. cbn [fst snd] in *. subst d.
  rewrite float_gt_inject_Z, int_inject_Z.
  rewrite Hs, Hm, Hh. rewrite !Z.div_div by lia.
  reflexivity.
Qed.

(** C8, as amended.  For every elapsed duration of [x] seconds with
    [0 <= x < 2^53] the uptime string is "Dd Hh Mm Ss" over the whole days,
    hours, minutes and seconds of [x], and the day component is left out
    exactly when the number of whole days is 0; 3600 seconds give
    "1h 0m 0s" and 90000 seconds "1d 1h 0m 0s". *)
Theorem uptime_str_format (x : Q) :
  (0 <= x)%Q →
  (x < inject_Z (2 ^ 53))%Q →
  let t := Qfloor x in
  let D := (t / 86400)%Z in
  let H := (t / 3600 mod 24)%Z in
  let M := (t / 60 mod 60)%Z in
  let S := (t mod 60)%Z in
  uptime_str x = (if (D =? 0)%Z then without_days H M S else with_days D H M S)
  ∧ (0 <= D ∧ 0 <= H < 24 ∧ 0 <= M < 60 ∧ 0 <= S < 60)%Z
  ∧ uptime_str 3600 = "1h 0m 0s"
  ∧ uptime_str 90000 = "1d 1h 0m 0s".
Proof.
  intros Hx Hlt t D H M S.
  assert (Ht : (0 <= t)%Z).
  { change 0%Z with (Qfloor 0). by apply Qfloor_resp_le. }
  assert (HD : (0 <= D)%Z) by (apply Z.div_pos; lia).
  split; [|split; [|split; vm_compute; reflexivity]].
  - rewrite uptime_str_whole.
    + fold t D H M S.
      destruct (Z.ltb_spec 0 D), (Z.eqb_spec D 0); try reflexivity; lia.
    + split; [|done]. eapply Qle_trans; [|exact Hx]. done.
    + intros Hneg. exfalso. lra.
  - subst H M S. repeat split; try done; apply Z.mod_pos_bound; lia.
Qed.

Lemma uptime_str_format_witness :
  uptime_str 90061.5 = "1d 1h 1m 1s".
Proof.
  refine (proj1 (uptime_str_format 90061.5 _ _)).
  - unfold Qle; simpl; lia.
  - reflexivity.
Defined.

(** C8, as stated, fails at both ends.  A negative duration (the clock
    stepped back by 90000 seconds) has -2 whole days, yet the day component
    is left out.  Above 2^53 seconds the float arithmetic of [divmod] loses
    whole seconds: at 245099243674307296 seconds, 8 minutes into the hour,
    the string shows 7. *)
Lemma uptime_str_out_of_range :
  (Qfloor (-90000) / 86400 = -2)%Z
  ∧ uptime_str (-90000) = "23h 0m 0s"
  ∧ (245099243674307296 / 60 mod 60 = 8)%Z
  ∧ uptime_str 245099243674307296 = "2836796801785d 23h 7m 16s".
Proof. repeat split; vm_compute; reflexivity. Qed.

(** *** Further properties of the uptime string *)

(** X7.  For a duration from 0 up to 2^53 seconds the uptime string
    ignores the fraction of a second: it is the string of the whole
    seconds. *)
Theorem uptime_str_whole_seconds (x : Q) :
  (0 <= x)%Q → (x < inject_Z (2 ^ 53))%Q →
  uptime_str x = uptime_str (inject_Z (Qfloor x)).
Proof.
  intros Hx Hlt.
  assert (Hr : in_range x).
  { split; [|done]. eapply Qle_trans; [|exact Hx]. done. }
  assert (Hr' : in_range (inject_Z (Qfloor x))).
  { apply in_range_whole, in_range_floor, Hr. }
  rewrite (uptime_str_whole x Hr), (uptime_str_whole (inject_Z (Qfloor x)) Hr').
  - cbn zeta. rewrite Qfloor_Z. reflexivity.
  - intros Hneg. exfalso.
    assert (0 <= Qfloor x)%Z
      by (change 0%Z with (Qfloor 0); by apply Qfloor_resp_le).
    rewrite Zle_Qle in H. change (inject_Z 0) with 0%Q in H. lra.
  - intros Hneg. exfalso. lra.
Qed.

Lemma uptime_str_whole_seconds_witness :
  uptime_str 90061.5 = uptime_str 90061.
Proof.
  refine (uptime_str_whole_seconds 90061.5 _ _); [unfold Qle; simpl; lia | reflexivity].
Defined.

(** X8.  When the clock has stepped back and the elapsed duration [x] is
    negative, down to -2^52 seconds and a whole multiple of 2^-j seconds
    for some [j <= 47] (as the difference of two timestamps is), the day
    component is always left out, although the number of whole days is
    below zero; hours, minutes and seconds are those of the floored
    duration counted back from midnight, each within its range. *)
Theorem uptime_str_negative (x : Q) (z j : Z) :
  (0 <= j <= 47)%Z →
  (Qnum x * 2 ^ j = z * Z.pos (Qden x))%Z →
  (inject_Z (- 2 ^ 52) <= x)%Q →
  (x < 0)%Q →
  let t := Qfloor x in
  let H := (t / 3600 mod 24)%Z in
  let M := (t / 60 mod 60)%Z in
  let S := (t mod 60)%Z in
  uptime_str x = without_days H M S
  ∧ (t / 86400 < 0)%Z
  ∧ (0 <= H < 24 ∧ 0 <= M < 60 ∧ 0 <= S < 60)%Z.
Proof.
  intros Hj Hz Hlo Hx t H M S.
  assert (Hr : in_range x).
  { split; [done|]. eapply Qlt_trans; [exact Hx|]. done. }
  assert (Ht : (t < 0)%Z).
  { assert (Hq : (inject_Z t < 0)%Q)
      by (eapply Qle_lt_trans; [apply Qfloor_le | exact Hx]).
    unfold Qlt in Hq. cbn [Qnum Qden inject_Z] in Hq. lia. }
  assert (HD : (t / 86400 < 0)%Z) by (apply Z.div_lt_upper_bound; lia).
  split; [|split; [done|]].
  - rewrite uptime_str_whole; [| done |].
    + fold t H M S.
      destruct (Z.ltb_spec 0 (t / 86400)); [lia | reflexivity].
    + intros _ y Hy. fold t in Hy.
      destruct (int_div_floor x 60) as (Hkx & Hxk & _). fold t in Hkx, Hxk.
      assert (H2j : (0 < 2 ^ j <= 2 ^ 47)%Z).
      { split; [apply Z.pow_pos_nonneg; lia | apply Z.pow_le_mono_r; lia]. }
      assert (H47 : (60 * 2 ^ 47 < 2 ^ 53)%Z) by reflexivity.
      clear Hlo Hx Hr Ht HD. clearbody t. destruct x as [a b], y as [c d].
      unfold Qle, Qlt, Qeq, Qminus, Qplus, Qopp, inject_Z in Hkx, Hxk, Hy.
      cbn [Qnum Qden] in *. rewrite ?Z.mul_1_r, ?Pos.mul_1_r in *.
      set (k := (t / 60)%Z) in *. clearbody k.
      set (e := (2 ^ j)%Z) in *.
      apply (round_exact (c # d) (z - 60 * k * e) j); [| lia | cbn [Qnum Qden]];
        fold e; clearbody e;
        set (B := Z.pos b) in *; (assert (0 < B)%Z by (subst B; lia)); clearbody B;
        set (D := Z.pos d) in *; (assert (0 < D)%Z by (subst D; lia)); clearbody D.
      * assert (0 <= (z - 60 * k * e) * B)%Z by nia.
        assert ((z - 60 * k * e) * B < 60 * e * B)%Z by nia.
        assert (0 <= z - 60 * k * e < 60 * e)%Z by nia.
        lia.
      * apply Z.mul_reg_r with B; [lia|]. nia.
  - subst H M S. repeat split; try done; apply Z.mod_pos_bound; lia.
Qed.

Lemma uptime_str_negative_witness :
  uptime_str (-0.5) = "23h 59m 59s".
Proof.
  refine (proj1 (uptime_str_negative (-0.5) (-1) 1 _ _ _ _)).
  - lia.
  - reflexivity.
  - vm_compute. discriminate.
  - reflexivity.
Defined.

End UptimeFacts.

(** * Properties of the service *)
Module ServiceFacts.
Import Service.

(** Unfold the handler down to matches on the world and the collaborators. *)
Ltac py_unfold :=
  unfold serve, generate_audio, health_check, lifespan_startup, synthesize,
    try_except, raise, get_tts_model, set_tts_model, logger, uuid4,
    import_TTS, TTS_to,
    os_path_exists, model_tts_to_file, read_file, os_remove,
    mbind, mret, Py_bind, Py_ret;
  cbn beta iota.

(** No [CallRemove] among a short explicit list of calls. *)
Ltac no_removal :=
  unfold tts_call; rewrite ?not_elem_of_cons; repeat split;
  solve [discriminate | apply not_elem_of_nil].

Lemma str_is_empty_false s : str_is_empty s = false ↔ s ≠ "".
Proof. by destruct s. Qed.

Lemma isspace_nonempty s : isspace s = true → s ≠ "".
Proof. by destruct s. Qed.

(** C3.  While the model handle is unset, [POST /generate] answers 503
    whatever the text, language and speaker path of the request, and leaves
    the world as it was. *)
Theorem generate_audio_unavailable env request w :
  tts_model w = None →
  serve (generate_audio env request) w
  = (w, error_reply 503 "TTS model is not available.").
Proof.
  intros Hm. py_unfold. rewrite Hm. reflexivity.
Qed.

Lemma generate_audio_unavailable_witness :
  snd (serve (generate_audio (demo_env false true) (demo_request "hello"))
         (boot demo_files))
  = error_reply 503 "TTS model is not available.".
Proof.
  rewrite (generate_audio_unavailable (demo_env false true) (demo_request "hello")
             (boot demo_files) eq_refl).
  reflexivity.
Defined.

(** C4, as amended.  While the model handle is set, every request with
    empty text is answered with status 400. *)
Theorem generate_audio_empty_text env request w m :
  tts_model w = Some m →
  text request = "" →
  serve (generate_audio env request) w = (w, error_reply 400 "Text is required.").
Proof.
  intros Hm Ht. py_unfold. rewrite Hm, Ht. reflexivity.
Qed.

Lemma generate_audio_empty_text_witness :
  let w := fst (lifespan_startup (demo_env true true) (boot demo_files)) in
  snd (serve (generate_audio (demo_env true true) (demo_request "")) w)
  = error_reply 400 "Text is required.".
Proof.
  intros w.
  rewrite (generate_audio_empty_text (demo_env true true) (demo_request "") w
             {| model_name := "tts_models/multilingual/multi-dataset/xtts_v2";
                model_device := "cuda:1" |} eq_refl eq_refl).
  reflexivity.
Defined.

(** C4, as the specification states it, fails: the model check comes first,
    so a request with empty text is answered 503 while the model is unset. *)
Lemma generate_audio_empty_text_unloaded :
  ¬ (∀ env request w,
       text request = "" →
       status (snd (serve (generate_audio env request) w)) = 400%Z).
Proof.
  intros H.
  specialize (H (demo_env false true) (demo_request "") (boot demo_files) eq_refl).
  vm_compute in H. discriminate.
Qed.

(** C5.  With the model loaded and the text non-empty, a speaker path that
    does not exist is answered with 500 when it is the default path and with
    400 when it is any other path. *)
Theorem generate_audio_speaker_missing env request w m :
  tts_model w = Some m →
  text request ≠ "" →
  files w !! speaker_wav request = None →
  (speaker_wav request = DEFAULT_SPEAKER_PATH env →
   serve (generate_audio env request) w
   = (w, error_reply 500 ("Default reference voice not found at "
                          +:+ DEFAULT_SPEAKER_PATH env
                          +:+ ". Please add a reference.wav file.")))
  ∧ (speaker_wav request ≠ DEFAULT_SPEAKER_PATH env →
     serve (generate_audio env request) w
     = (w, error_reply 400 ("Speaker wav file not found: " +:+ speaker_wav request))).
Proof.
  intros Hm Ht Hs. apply str_is_empty_false in Ht.
  split; intros Hd; py_unfold; rewrite Hm, Ht, Hs;
    (rewrite bool_decide_eq_false_2 by (intros [? ?]; done)); cbn [negb].
  - apply String.eqb_eq in Hd. rewrite Hd. reflexivity.
  - apply String.eqb_neq in Hd. rewrite Hd. reflexivity.
Qed.

Lemma generate_audio_speaker_missing_witness :
  let w := fst (lifespan_startup (demo_env true true) (boot ∅)) in
  status (snd (serve (generate_audio (demo_env true true) (demo_request "hello")) w))
  = 500%Z
  ∧ status (snd (serve (generate_audio (demo_env true true)
                          {| text := "hello"; language := "en";
                             speaker_wav := "/home/me/voice.wav" |}) w))
    = 400%Z.
Proof.
  intros w.
  pose (m := {| model_name := "tts_models/multilingual/multi-dataset/xtts_v2";
                model_device := "cuda:1" |}).
  split.
  - rewrite (proj1 (generate_audio_speaker_missing (demo_env true true)
                      (demo_request "hello") w m eq_refl
                      ltac:(discriminate) eq_refl) eq_refl).
    reflexivity.
  - rewrite (proj2 (generate_audio_speaker_missing (demo_env true true)
                      {| text := "hello"; language := "en";
                         speaker_wav := "/home/me/voice.wav" |} w m eq_refl
                      ltac:(discriminate) eq_refl) ltac:(discriminate)).
    reflexivity.
Defined.

(** *** Start-up and [/health] *)

Lemma lifespan_startup_run env w :
  lifespan_startup env w =
  let w0 := fst (logger INFO ("Starting TTS Service on device: " +:+ DEVICE env) w) in
  let loading := "Loading XTTS-v2 model (with weights_only=False override)..." in
  match TTS_import env with
  | Some e =>
      set_tts_model None
        (fst (logger ERROR ("Failed to load TTS model: " +:+ str_of_exception e) w0))
  | None =>
      let w1 := fst (TTS_to env "tts_models/multilingual/multi-dataset/xtts_v2"
                       (DEVICE env) (fst (logger INFO loading w0))) in
      match load_outcome env w with
      | inl e =>
          set_tts_model None
            (fst (logger ERROR ("Failed to load TTS model: " +:+ str_of_exception e) w1))
      | inr m =>
          logger INFO "XTTS-v2 model loaded successfully."
            (fst (set_tts_model (Some m) w1))
      end
  end.
Proof.
  py_unfold. unfold load_outcome.
  cbn [tts_model files uuids_drawn log fs_calls fst].
  destruct (TTS_import env) as [e|]; [reflexivity|].
  cbn [tts_model files uuids_drawn log fs_calls fst].
  destruct (TTS_load env _ _ _) as [fs [e|m]]; reflexivity.
Qed.

(** C9.  Start-up always completes.  If loading the model fails, whatever
    the exception, the model handle is left unset and [GET /health] answers
    503 with status "error"; if loading succeeds, the handle is set and
    [GET /health] answers 200 with status "ok" and the selected device
    string. *)
Theorem startup_then_health env w :
  let w' := fst (lifespan_startup env w) in
  snd (lifespan_startup env w) = inr tt
  ∧ (∀ e, load_outcome env w = inl e →
          tts_model w' = None
          ∧ serve (health_check env) w'
            = (w', {| status := 503;
                      body := JsonBody [("status", "error");
                                        ("detail", "Model not loaded")] |}))
  ∧ (∀ m, load_outcome env w = inr m →
          tts_model w' = Some m
          ∧ serve (health_check env) w'
            = (w', {| status := 200;
                      body := JsonBody [("status", "ok");
                                        ("device", DeviceSelector.DEVICE (cuda env));
                                        ("model", "xtts_v2")] |})).
Proof.
  cbn zeta. rewrite lifespan_startup_run. cbn zeta.
  destruct (TTS_import env) as [e0|] eqn:Himport.
  { split; [done|]. split; [|unfold load_outcome; rewrite Himport; intros ? [=]].
    intros ? _. split; [done|]. reflexivity. }
  destruct (load_outcome env w) as [e0|m0].
  - split; [done|]. split; [|intros ? [=]].
    intros ? _. split; [done|]. reflexivity.
  - split; [done|]. split; [intros ? [=]|].
    intros ? [= <-]. split; [done|]. reflexivity.
Qed.

Lemma startup_then_health_witness :
  (let w' := fst (lifespan_startup (demo_env false true) (boot demo_files)) in
   tts_model w' = None
   ∧ status (snd (serve (health_check (demo_env false true)) w')) = 503%Z)
  ∧ (let w' := fst (lifespan_startup (demo_env true true) (boot demo_files)) in
     snd (serve (health_check (demo_env true true)) w')
     = {| status := 200;
          body := JsonBody [("status", "ok"); ("device", "cuda:1");
                            ("model", "xtts_v2")] |}).
Proof.
  split.
  - destruct (proj1 (proj2 (startup_then_health (demo_env false true) (boot demo_files)))
                (Exception "CUDA error: out of memory") eq_refl) as [Hm Hh].
    cbn zeta. rewrite Hm, Hh. split; reflexivity.
  - destruct (proj2 (proj2 (startup_then_health (demo_env true true) (boot demo_files)))
                {| model_name := "tts_models/multilingual/multi-dataset/xtts_v2";
                   model_device := "cuda:1" |} eq_refl) as [Hm Hh].
    cbn zeta. rewrite Hh. reflexivity.
Defined.

(** *** The synthesis path *)

(** Past the three checks, the handler is the [try] block under its
    [except] clause. *)
Lemma generate_audio_validated env request w m :
  validated request w m →
  generate_audio env request w
  = try_except (synthesize env m request) generation_failed w.
Proof.
  intros (Hm & Ht & Hs). apply str_is_empty_false in Ht.
  unfold generate_audio, get_tts_model, os_path_exists, mbind, Py_bind.
  rewrite Hm, Ht, bool_decide_eq_true_2 by done. reflexivity.
Qed.

(** The [try] block, step by step. *)
Lemma synthesize_run env m request w :
  synthesize env m request w =
  let p := output_path env w in
  let '(fs, r) := tts_outcome env m request w in
  let w1 := fs_step (tts_call env request w) fs (in_try request w) in
  let w2 := fs_step (CallRead p) fs w1 in
  match r with
  | Some e => (w1, inl e)
  | None =>
      match os_fault env (CallRead p) with
      | Some e => (w2, inl e)
      | None =>
          match fs !! p with
          | None => (w2, inl (FileNotFoundError p))
          | Some audio =>
              match os_fault env (CallRemove p) with
              | Some e => (fs_step (CallRemove p) fs w2, inl e)
              | None =>
                  (fs_step (CallRemove p) (delete p fs) w2,
                   inr {| status := 200; body := RawBody audio "audio/wav" |})
              end
          end
      end
  end.
Proof.
  py_unfold. unfold tts_outcome, tts_call, output_path, in_try.
  cbn [tts_model files uuids_drawn log fs_calls].
  destruct (tts_to_file env _ _ _ _ _ _) as [fs [e|]]; [reflexivity|].
  cbn [fs_step tts_model files uuids_drawn log fs_calls].
  destruct (os_fault env (CallRead _)) as [e|]; [reflexivity|].
  cbn [fs_step tts_model files uuids_drawn log fs_calls].
  destruct (fs !! _) as [audio|] eqn:Hp; [|reflexivity].
  cbn [fs_step tts_model files uuids_drawn log fs_calls].
  destruct (os_fault env (CallRemove _)) as [e|]; [reflexivity|].
  cbn [fs_step tts_model files uuids_drawn log fs_calls].
  reflexivity.
Qed.

(** Every way of raising inside the [try] makes the block end in that
    exception, and the block raises in no other way. *)
Lemma synthesize_raises env m request w e :
  raises_in_try env m request w e ↔ snd (synthesize env m request w) = inl e.
Proof.
  rewrite synthesize_run. cbn zeta. split.
  - intros [fs Ho | fs Ho [Hr | (Hr & Hp & ->)] | fs audio Ho Hr Hp Hd];
      rewrite Ho; cbn [snd]; rewrite ?Hr, ?Hp, ?Hd; reflexivity.
  - destruct (tts_outcome env m request w) as [fs [e0|]] eqn:Ho.
    { intros [= <-]. by eapply raises_in_synthesis. }
    destruct (os_fault env (CallRead _)) as [e0|] eqn:Hr.
    { intros [= <-]. eapply raises_in_read; [done|]. by left. }
    destruct (fs !! _) as [audio|] eqn:Hp.
    2:{ intros [= <-]. eapply raises_in_read; [done|]. by right. }
    destruct (os_fault env (CallRemove _)) as [e0|] eqn:Hd; [|done].
    intros [= <-]. by eapply raises_in_remove.
Qed.

(** C6.  When a request has passed the three checks and an exception is
    raised by the synthesis, by reading the artifact or by deleting it, the
    handler catches it, logs it, and answers 500 with a detail that is
    exactly the message of the exception. *)
Theorem generate_audio_exception env request w m e :
  validated request w m →
  raises_in_try env m request w e →
  snd (serve (generate_audio env request) w)
  = error_reply 500 (str_of_exception e)
  ∧ last (log (fst (serve (generate_audio env request) w)))
    = Some (ERROR, "Generation failed: " +:+ str_of_exception e).
Proof.
  intros Hv He. apply synthesize_raises in He.
  unfold serve. rewrite (generate_audio_validated _ _ _ _ Hv).
  unfold try_except. destruct (synthesize env m request w) as [w1 r].
  cbn [snd] in He. subst r.
  unfold generation_failed, logger, raise, mbind, Py_bind. cbn.
  split; [reflexivity | apply last_snoc].
Qed.

Lemma generate_audio_exception_witness :
  let w := fst (lifespan_startup (demo_env true false) (boot demo_files)) in
  snd (serve (generate_audio (demo_env true false) (demo_request "hello")) w)
  = error_reply 500 "Language not supported".
Proof.
  intros w.
  refine (proj1 (generate_audio_exception (demo_env true false)
                   (demo_request "hello") w
                   {| model_name := "tts_models/multilingual/multi-dataset/xtts_v2";
                      model_device := "cuda:1" |}
                   (Exception "Language not supported") _ _)).
  - split; [reflexivity|]. split; [discriminate|]. eexists. reflexivity.
  - eapply raises_in_synthesis. reflexivity.
Defined.

(** *** Names of the temporary files *)

Lemma length_append a b :
  String.length (a +:+ b) = String.length a + String.length b.
Proof.
  induction a as [|c a IH]; [done|].
  change (String c a +:+ b) with (String c (a +:+ b)). cbn. by rewrite IH.
Qed.

Lemma append_inj_r t : ∀ s1 s2, s1 +:+ t = s2 +:+ t → s1 = s2.
Proof.
  induction s1 as [|c s1 IH]; intros [|c2 s2] H; [done| | |].
  - apply (f_equal String.length) in H.
    rewrite !length_append in H. cbn in H. lia.
  - apply (f_equal String.length) in H.
    rewrite !length_append in H. cbn in H. lia.
  - change (String c (s1 +:+ t) = String c2 (s2 +:+ t)) in H.
    injection H as -> H. f_equal. by apply IH.
Qed.

Lemma prefix_sep_append u t :
  String.prefix "/" t = false →
  String.prefix "/" u = false → String.prefix "/" (u +:+ t) = false.
Proof.
  intros Ht Hu. destruct u as [|c u]; [done|].
  change (String c u +:+ t) with (String c (u +:+ t)).
  cbn [String.prefix] in *.
  destruct (ascii_dec "/"%char c); [by destruct u | done].
Qed.

Lemma os_path_join_inj a b1 b2 :
  String.prefix "/" b1 = false → String.prefix "/" b2 = false →
  os_path_join a b1 = os_path_join a b2 → b1 = b2.
Proof.
  unfold os_path_join. intros -> ->.
  destruct (_ || _); intros H.
  - by apply (inj (String.append a)) in H.
  - apply (inj (String.append a)) in H. by apply (inj (String.append "/")) in H.
Qed.

Lemma and3_intro (A B C D : Prop) : A ∧ B ∧ C → D → A ∧ B ∧ C ∧ D.
Proof. tauto. Qed.

(** C7.  For a request that has passed the three checks, with [fs] the
    files the synthesis leaves and [p] the temporary path of the request:
    the request succeeds exactly when the synthesis returns, the artifact
    is read and the delete goes through; then the calls made are the
    synthesis into [p], the read of [p] and the removal of [p], in this
    order, the reply carries the whole content of [p], and [p] is no longer
    on disk.  If the synthesis or the read raises, no removal is called and
    the files stay as the synthesis left them.  The name of [p] is the
    next value of [uuid4], and the request uses that value up: whatever its
    outcome the stream is one further afterwards, so that, [uuid4] never
    giving the same value twice (nor one that starts with a slash), no
    request served at another point of the stream writes to [p]. *)
Theorem generate_audio_artifact env request w m fs r :
  validated request w m →
  tts_outcome env m request w = (fs, r) →
  let p := output_path env w in
  let w' := fst (serve (generate_audio env request) w) in
  let reply := snd (serve (generate_audio env request) w) in
  (status reply = 200%Z
   ↔ r = None ∧ os_fault env (CallRead p) = None ∧ is_Some (fs !! p)
     ∧ os_fault env (CallRemove p) = None)
  ∧ (status reply = 200%Z →
     ∃ audio, fs !! p = Some audio
              ∧ body reply = RawBody audio "audio/wav"
              ∧ fs_calls w' = fs_calls w
                              ++ [tts_call env request w; CallRead p; CallRemove p]
              ∧ files w' = delete p fs
              ∧ files w' !! p = None)
  ∧ ((is_Some r ∨ ∃ e, read_raises env p fs e) →
     status reply = 500%Z
     ∧ files w' = fs
     ∧ ∃ calls, fs_calls w' = fs_calls w ++ calls ∧ CallRemove p ∉ calls)
  ∧ p = os_path_join (OUTPUT_DIR env) (uuid_stream env (uuids_drawn w) +:+ ".wav")
  ∧ uuids_drawn w' = S (uuids_drawn w)
  ∧ ((∀ i j, uuid_stream env i = uuid_stream env j → i = j) →
     (∀ i, String.prefix "/" (uuid_stream env i) = false) →
     ∀ w0, uuids_drawn w0 ≠ uuids_drawn w → output_path env w0 ≠ p).
Proof.
  intros Hv Ho. cbn zeta. apply and3_intro.
  2:{ split; [reflexivity|]. split.
      - unfold serve. rewrite (generate_audio_validated _ _ _ _ Hv).
        unfold try_except. rewrite synthesize_run, Ho. cbn zeta.
        unfold generation_failed, logger, raise, mbind, Py_bind.
        destruct r as [e|]; [reflexivity|].
        destruct (os_fault env (CallRead _)) as [e|]; [reflexivity|].
        destruct (fs !! _) as [audio|]; [|reflexivity].
        destruct (os_fault env (CallRemove _)) as [e|]; reflexivity.
      - intros Hinj Hsep w0 Hne Heq. unfold output_path in Heq.
        apply os_path_join_inj in Heq; [|by apply prefix_sep_append..].
        apply append_inj_r, Hinj in Heq. done. }
  unfold serve. rewrite (generate_audio_validated _ _ _ _ Hv).
  unfold try_except. rewrite synthesize_run, Ho. cbn zeta.
  unfold generation_failed, logger, raise, mbind, Py_bind.
  destruct r as [e|].
  { cbn. split; [split; [done | by intros [? _]]|]. split; [done|].
    intros _. split; [done|]. split; [done|].
    exists [tts_call env request w]. split; [done | no_removal]. }
  destruct (os_fault env (CallRead _)) as [e|] eqn:Hr.
  { cbn. split; [split; [done | by intros (_ & ? & _)]|]. split; [done|].
    intros _. split; [done|]. split; [done|].
    exists [tts_call env request w; CallRead (output_path env w)].
    split; [by rewrite <- app_assoc | no_removal]. }
  destruct (fs !! _) as [audio|] eqn:Hp.
  2:{ cbn. split; [split; [done | by intros (_ & _ & [? ?] & _)]|]. split; [done|].
      intros _. split; [done|]. split; [done|].
      exists [tts_call env request w; CallRead (output_path env w)].
      split; [by rewrite <- app_assoc | no_removal]. }
  destruct (os_fault env (CallRemove _)) as [e|] eqn:Hd.
  { cbn. split; [split; [done | by intros (_ & _ & _ & ?)]|]. split; [done|].
    intros [[? [=]] | [e0 [Hf | (_ & Hn & _)]]]; congruence. }
  cbn. split; [split; [by eauto | done]|]. split.
  - intros _. exists audio. split; [done|]. split; [done|].
    split; [by rewrite <- !app_assoc|]. split; [done | apply lookup_delete_eq].
  - intros [[? [=]] | [e0 [Hf | (_ & Hn & _)]]]; congruence.
Qed.

Lemma generate_audio_artifact_witness :
  let env := demo_env true true in
  let w := fst (lifespan_startup env (boot demo_files)) in
  let w' := fst (serve (generate_audio env (demo_request "hello")) w) in
  ∃ audio,
    body (snd (serve (generate_audio env (demo_request "hello")) w))
    = RawBody audio "audio/wav"
    ∧ files w' !! "/srv/tts/output/0000-0.wav" = None.
Proof.
  intros env w w'.
  pose (m := {| model_name := "tts_models/multilingual/multi-dataset/xtts_v2";
                model_device := "cuda:1" |}).
  destruct (generate_audio_artifact env (demo_request "hello") w m
              (<["/srv/tts/output/0000-0.wav" := demo_wav]> demo_files) None)
    as (_ & Hok & _).
  - split; [reflexivity|]. split; [discriminate|]. eexists. reflexivity.
  - reflexivity.
  - destruct (Hok eq_refl) as (audio & _ & Hb & _ & _ & Hgone).
    exists audio. split; [exact Hb | exact Hgone].
Defined.

(** C10, as amended.  With the model loaded and the speaker path present,
    a request whose text is made of whitespace only passes the text check
    and reaches the synthesis: [tts_to_file] is called with that text, and
    the reply is not a 400. *)
Theorem generate_audio_whitespace env request w m :
  tts_model w = Some m →
  isspace (text request) = true →
  is_Some (files w !! speaker_wav request) →
  status (snd (serve (generate_audio env request) w)) ≠ 400%Z
  ∧ ∃ calls, fs_calls (fst (serve (generate_audio env request) w))
             = fs_calls w ++ tts_call env request w :: calls.
Proof.
  intros Hm Ht Hs. apply isspace_nonempty in Ht.
  assert (Hv : validated request w m) by done.
  unfold serve. rewrite (generate_audio_validated _ _ _ _ Hv).
  unfold try_except. rewrite synthesize_run.
  destruct (tts_outcome env m request w) as [fs r]. cbn zeta.
  unfold generation_failed, logger, raise, mbind, Py_bind.
  destruct r as [e|]; [cbn; split; [done | by exists []]|].
  destruct (os_fault env (CallRead _)) as [e|];
    [cbn; split; [done | eexists; by rewrite <- app_assoc]|].
  destruct (fs !! _) as [audio|];
    [|cbn; split; [done | eexists; by rewrite <- app_assoc]].
  destruct (os_fault env (CallRemove _)) as [e|];
    cbn; (split; [done | eexists; by rewrite <- !app_assoc]).
Qed.

Lemma generate_audio_whitespace_witness :
  let env := demo_env true true in
  let w := fst (lifespan_startup env (boot demo_files)) in
  status (snd (serve (generate_audio env (demo_request " ")) w)) ≠ 400%Z.
Proof.
  intros env w.
  refine (proj1 (generate_audio_whitespace env (demo_request " ") w
                   {| model_name := "tts_models/multilingual/multi-dataset/xtts_v2";
                      model_device := "cuda:1" |} _ _ _)).
  - reflexivity.
  - reflexivity.
  - eexists. reflexivity.
Defined.

(** C10, as stated, fails: a whitespace-only text passes the text check,
    but the speaker check that follows still answers 400 when the request
    names a speaker file that does not exist. *)
Lemma generate_audio_whitespace_bad_speaker :
  ¬ (∀ env request w m,
       tts_model w = Some m →
       isspace (text request) = true →
       status (snd (serve (generate_audio env request) w)) ≠ 400%Z).
Proof.
  intros H.
  apply (H (demo_env true true)
           {| text := " "; language := "en"; speaker_wav := "/home/me/voice.wav" |}
           (fst (lifespan_startup (demo_env true true) (boot demo_files)))
           {| model_name := "tts_models/multilingual/multi-dataset/xtts_v2";
              model_device := "cuda:1" |});
    reflexivity.
Qed.

(** *** Further properties of [POST /generate] *)

(** A request either passes the three checks or fails one of them. *)
Lemma validated_cases request w :
  (∃ m, validated request w m)
  ∨ tts_model w = None ∨ text request = ""
  ∨ files w !! speaker_wav request = None.
Proof.
  destruct (tts_model w) as [m|] eqn:Hm; [|by auto].
  destruct (text request) as [|c t] eqn:Ht; [by auto|].
  destruct (files w !! speaker_wav request) as [content|] eqn:Hs; [|by auto].
  left. exists m. unfold validated. rewrite Ht, Hs. by eauto.
Qed.

(** A request that fails a check is refused with an [HTTPException] and
    leaves the world as it was. *)
Lemma generate_audio_rejected env request w :
  tts_model w = None ∨ text request = "" ∨ files w !! speaker_wav request = None →
  ∃ code detail,
    generate_audio env request w = (w, inl (HTTPException code detail))
    ∧ (code = 503 ∨ code = 400 ∨ code = 500)%Z.
Proof.
  intros Hrej. py_unfold.
  destruct (tts_model w) as [m|]; [|by eauto 6].
  destruct (str_is_empty (text request)) eqn:Ht; [by eauto 6|].
  apply str_is_empty_false in Ht.
  destruct Hrej as [?|[?|Hs]]; [done..|].
  rewrite Hs, bool_decide_eq_false_2 by (intros [? ?]; done). cbn [negb].
  destruct (String.eqb _ _); by eauto 6.
Qed.

(** Past the checks: the outcome of the [try] block, or a 500 with the
    message of what it raised, logged. *)
Lemma generate_audio_try env request w m :
  validated request w m →
  serve (generate_audio env request) w =
  match synthesize env m request w with
  | (w1, inr reply) => (w1, reply)
  | (w1, inl e) =>
      (fst (logger ERROR ("Generation failed: " +:+ str_of_exception e) w1),
       error_reply 500 (str_of_exception e))
  end.
Proof.
  intros Hv. unfold serve. rewrite (generate_audio_validated _ _ _ _ Hv).
  unfold try_except. destruct (synthesize env m request w) as [w1 [e|reply]];
    reflexivity.
Qed.

(** The [try] block writes the model handle nowhere, draws one UUID and
    logs its first line. *)
Lemma synthesize_frame env m request w :
  let w1 := fst (synthesize env m request w) in
  tts_model w1 = tts_model w
  ∧ uuids_drawn w1 = S (uuids_drawn w)
  ∧ log w1 = log (in_try request w)
  ∧ (∀ reply, snd (synthesize env m request w) = inr reply → status reply = 200%Z).
Proof.
  rewrite synthesize_run. cbn zeta.
  destruct (tts_outcome env m request w) as [fs [e|]]; [done|].
  destruct (os_fault env (CallRead _)) as [e|]; [done|].
  destruct (fs !! _) as [audio|]; [|done].
  destruct (os_fault env (CallRemove _)) as [e|]; [done|].
  cbn. repeat split. by intros ? [= <-].
Qed.

Lemma generate_audio_tts_model env request w :
  tts_model (fst (serve (generate_audio env request) w)) = tts_model w.
Proof.
  destruct (validated_cases request w) as [[m Hv]|Hrej].
  - rewrite (generate_audio_try _ _ _ _ Hv).
    destruct (synthesize_frame env m request w) as (Hm & _).
    destruct (synthesize env m request w) as [w1 [e|reply]]; exact Hm.
  - destruct (generate_audio_rejected env request w Hrej) as (code & detail & Hg & _).
    unfold serve. by rewrite Hg.
Qed.

(** X12.  Handling requests never writes the model handle: after
    [POST /generate], whatever its outcome, the handle is what it was, and
    [GET /health] leaves the whole world as it was. *)
Theorem handlers_keep_model env request w :
  tts_model (fst (serve (generate_audio env request) w)) = tts_model w
  ∧ fst (serve (health_check env) w) = w.
Proof.
  split; [apply generate_audio_tts_model|].
  py_unfold. by destruct (tts_model w).
Qed.

(** X13.  Every outcome of [POST /generate] is a structured one: either
    the 200 reply with the audio, or an [HTTPException] with status 400,
    500 or 503.  No other exception escapes the handler, so the client
    never gets the bare error page of the framework. *)
Theorem generate_audio_structured env request w :
  (∃ audio, snd (generate_audio env request w)
            = inr {| status := 200; body := RawBody audio "audio/wav" |})
  ∨ (∃ code detail,
       snd (generate_audio env request w) = inl (HTTPException code detail)
       ∧ (code = 400 ∨ code = 500 ∨ code = 503)%Z
       ∧ snd (serve (generate_audio env request) w) = error_reply code detail).
Proof.
  destruct (validated_cases request w) as [[m Hv]|Hrej].
  - unfold serve. rewrite (generate_audio_validated _ _ _ _ Hv).
    unfold try_except. rewrite synthesize_run. cbn zeta.
    destruct (tts_outcome env m request w) as [fs [e|]];
      [right; cbn; by eauto 8|].
    destruct (os_fault env (CallRead _)) as [e|]; [right; cbn; by eauto 8|].
    destruct (fs !! _) as [audio|]; [|right; cbn; by eauto 8].
    destruct (os_fault env (CallRemove _)) as [e|]; [right; cbn; by eauto 8|].
    left. by exists audio.
  - destruct (generate_audio_rejected env request w Hrej)
      as (code & detail & Hg & Hcode).
    right. exists code, detail. unfold serve. rewrite Hg.
    split; [done|]. split; [tauto | done].
Qed.

Lemma startup_tts_model env w :
  tts_model (fst (lifespan_startup env w))
  = match load_outcome env w with inl _ => None | inr m => Some m end.
Proof.
  rewrite lifespan_startup_run. cbn zeta.
  destruct (TTS_import env) as [e|] eqn:Himport;
    [unfold load_outcome; by rewrite Himport|].
  by destruct (load_outcome env w).
Qed.

(** X14.  When loading the model failed at start-up, every request of any
    sequence served afterwards is answered 503, and the sequence leaves the
    world exactly as start-up left it: no log line, no file, no UUID. *)
Theorem degraded_service_all_unavailable env w e requests :
  load_outcome env w = inl e →
  serve_all env requests (fst (lifespan_startup env w))
  = (fst (lifespan_startup env w),
     replicate (length requests) (error_reply 503 "TTS model is not available.")).
Proof.
  intros Hload.
  pose proof (startup_tts_model env w) as Hm. rewrite Hload in Hm.
  generalize dependent (fst (lifespan_startup env w)). intros w0 Hm.
  induction requests as [|request rest IH]; [done|].
  cbn [serve_all length replicate].
  replace (serve (generate_audio env request) w0)
    with (w0, error_reply 503 "TTS model is not available.")
    by (py_unfold; by rewrite Hm).
  by rewrite IH.
Qed.

Lemma degraded_service_all_unavailable_witness :
  let env := demo_env false true in
  Forall (λ reply, status reply = 503%Z)
    (snd (serve_all env [demo_request "one"; demo_request ""; demo_request "three"]
            (fst (lifespan_startup env (boot demo_files))))).
Proof.
  intros env.
  rewrite (degraded_service_all_unavailable env (boot demo_files)
             (Exception "CUDA error: out of memory")
             [demo_request "one"; demo_request ""; demo_request "three"] eq_refl).
  repeat constructor.
Defined.

(** X15.  When the model was loaded at start-up, it stays loaded through
    any sequence of requests, failed ones included: after the sequence
    [GET /health] still answers 200. *)
Theorem loaded_service_stays_healthy env w m requests :
  load_outcome env w = inr m →
  let w' := fst (serve_all env requests (fst (lifespan_startup env w))) in
  tts_model w' = Some m
  ∧ status (snd (serve (health_check env) w')) = 200%Z.
Proof.
  intros Hload. cbn zeta.
  pose proof (startup_tts_model env w) as Hm. rewrite Hload in Hm.
  generalize dependent (fst (lifespan_startup env w)). intros w0 Hm.
  assert (Hkeep : tts_model (fst (serve_all env requests w0)) = Some m).
  { revert w0 Hm. induction requests as [|request rest IH]; intros w0 Hm; [done|].
    cbn [serve_all].
    pose proof (generate_audio_tts_model env request w0) as Hstep.
    destruct (serve (generate_audio env request) w0) as [w1 reply].
    cbn [fst] in Hstep. specialize (IH w1 ltac:(congruence)).
    by destruct (serve_all env rest w1). }
  split; [done|]. py_unfold. by rewrite Hkeep.
Qed.

Lemma loaded_service_stays_healthy_witness :
  let env := demo_env true false in
  status (snd (serve (health_check env)
                 (fst (serve_all env [demo_request "one"; demo_request ""]
                         (fst (lifespan_startup env (boot demo_files)))))))
  = 200%Z.
Proof.
  intros env.
  refine (proj2 (loaded_service_stays_healthy env (boot demo_files)
                   {| model_name := "tts_models/multilingual/multi-dataset/xtts_v2";
                      model_device := "cuda:1" |}
                   [demo_request "one"; demo_request ""] _)).
  reflexivity.
Defined.

(** *** The temporary artifact and the filesystem *)

(** X16.  A successful request leaves the filesystem as it found it: when
    the synthesis writes its output file and nothing else, the path was
    free before, and the reads and the removal go through, the reply is the
    audio and the files afterwards are exactly the files before. *)
Theorem generate_audio_restores_files env request w m audio :
  validated request w m →
  files w !! output_path env w = None →
  tts_outcome env m request w = (<[output_path env w := audio]> (files w), None) →
  os_fault env (CallRead (output_path env w)) = None →
  os_fault env (CallRemove (output_path env w)) = None →
  files (fst (serve (generate_audio env request) w)) = files w
  ∧ snd (serve (generate_audio env request) w)
    = {| status := 200; body := RawBody audio "audio/wav" |}.
Proof.
  intros Hv Hfree Ho Hr Hd.
  rewrite (generate_audio_try _ _ _ _ Hv), synthesize_run, Ho. cbn zeta.
  rewrite Hr, lookup_insert_eq, Hd. cbn [fst snd fs_step files].
  split; [by apply delete_insert_id | done].
Qed.

Lemma generate_audio_restores_files_witness :
  let env := demo_env true true in
  let w := fst (lifespan_startup env (boot demo_files)) in
  files (fst (serve (generate_audio env (demo_request "hello")) w)) = files w.
Proof.
  intros env w.
  refine (proj1 (generate_audio_restores_files env (demo_request "hello") w
                   demo_model demo_wav _ _ _ _ _)).
  - split; [reflexivity|]. split; [discriminate|]. eexists. reflexivity.
  - reflexivity.
  - reflexivity.
  - reflexivity.
  - reflexivity.
Defined.

(** X17.  Nothing cleans up after a failure.  When the synthesis has left
    its output file on disk and the request then fails, be it in the
    synthesis after the file was written, in the read, or in the removal
    itself, the reply is a 500 and the file is still on disk afterwards. *)
Theorem generate_audio_failure_keeps_artifact env request w m fs r audio :
  validated request w m →
  tts_outcome env m request w = (fs, r) →
  fs !! output_path env w = Some audio →
  status (snd (serve (generate_audio env request) w)) ≠ 200%Z →
  status (snd (serve (generate_audio env request) w)) = 500%Z
  ∧ files (fst (serve (generate_audio env request) w)) !! output_path env w
    = Some audio.
Proof.
  intros Hv Ho Hp.
  rewrite (generate_audio_try _ _ _ _ Hv), synthesize_run, Ho. cbn zeta.
  destruct r as [e|]; [done|].
  destruct (os_fault env (CallRead _)) as [e|]; [done|].
  rewrite Hp.
  destruct (os_fault env (CallRemove _)) as [e|]; [done|].
  cbn. done.
Qed.

Lemma generate_audio_failure_keeps_artifact_witness :
  let env := demo_env_no_remove in
  let w := fst (lifespan_startup env (boot demo_files)) in
  status (snd (serve (generate_audio env (demo_request "hello")) w)) = 500%Z
  ∧ files (fst (serve (generate_audio env (demo_request "hello")) w))
    !! "/srv/tts/output/0000-0.wav" = Some demo_wav.
Proof.
  intros env w.
  refine (generate_audio_failure_keeps_artifact env (demo_request "hello") w
            demo_model (<["/srv/tts/output/0000-0.wav" := demo_wav]> demo_files)
            None demo_wav _ _ _ _).
  - split; [reflexivity|]. split; [discriminate|]. eexists. reflexivity.
  - reflexivity.
  - reflexivity.
  - vm_compute. discriminate.
Defined.

(** *** Names of the temporary files, one after the other *)

Lemma validated_draws_uuid env request w m :
  validated request w m →
  uuids_drawn (fst (serve (generate_audio env request) w)) = S (uuids_drawn w).
Proof.
  intros Hv. rewrite (generate_audio_try _ _ _ _ Hv).
  destruct (synthesize_frame env m request w) as (_ & Hu & _).
  destruct (synthesize env m request w) as [w1 [e|reply]]; exact Hu.
Qed.

(** X18.  Two requests that reach the synthesis one after the other never
    write to the same temporary file, provided [uuid4] does not repeat
    itself (and its values, as UUIDs do, never start with a slash): the
    output path of the next request differs from the one just used. *)
Theorem output_paths_distinct env request w m :
  (∀ i j, uuid_stream env i = uuid_stream env j → i = j) →
  (∀ i, String.prefix "/" (uuid_stream env i) = false) →
  validated request w m →
  output_path env (fst (serve (generate_audio env request) w)) ≠ output_path env w.
Proof.
  intros Hinj Hsep Hv Heq. unfold output_path in Heq.
  rewrite (validated_draws_uuid _ _ _ _ Hv) in Heq.
  apply os_path_join_inj in Heq; [|by apply prefix_sep_append..].
  apply append_inj_r, Hinj in Heq. lia.
Qed.

Lemma output_paths_distinct_witness :
  let env := demo_env true true in
  let w := fst (lifespan_startup env (boot demo_files)) in
  output_path env (fst (serve (generate_audio env (demo_request "hello")) w))
  ≠ output_path env w.
Proof.
  intros env w.
  refine (output_paths_distinct env (demo_request "hello") w demo_model _ _ _).
  - intros i j H. cbn in H.
    apply (inj (String.append "0000-")) in H.
    apply DeviceSelectorFacts.str_of_N_inj in H. lia.
  - intros i. reflexivity.
  - split; [reflexivity|]. split; [discriminate|]. eexists. reflexivity.
Defined.

(** *** What a request leaves behind *)

Lemma str_take_prefix s : ∀ n,
  (str_len (str_take n s) ≤ n)%nat
  ∧ String.prefix (str_take n s) s = true.
Proof.
  induction s as [|c s IH]; intros n; [split; [cbn; lia | done]|].
  cbn [str_take]. destruct (utf8_continuation c) eqn:Hc.
  - destruct (IH n) as [Hl Hp]. cbn [str_len String.prefix]. rewrite Hc.
    split; [done|]. by destruct (ascii_dec c c).
  - destruct n as [|n]; [split; [cbn; lia | done]|].
    destruct (IH n) as [Hl Hp]. cbn [str_len String.prefix]. rewrite Hc.
    split; [lia|]. by destruct (ascii_dec c c).
Qed.

(** X19.  Side effects of one request.  A request that fails a check
    leaves the world untouched: no log line, no UUID drawn, no filesystem
    call.  A request that passes them draws exactly one UUID and logs, as
    its first line, at most the first 30 characters of the text (the
    characters of a UTF-8 text, not its bytes); at most one more line
    follows, the error line of a failure. *)
Theorem generate_audio_side_effects env request w :
  let w' := fst (serve (generate_audio env request) w) in
  let shown := str_take 30 (text request) in
  (tts_model w = None ∨ text request = "" ∨ files w !! speaker_wav request = None →
   w' = w)
  ∧ (∀ m, validated request w m →
          uuids_drawn w' = S (uuids_drawn w)
          ∧ (str_len shown ≤ 30)%nat
          ∧ String.prefix shown (text request) = true
          ∧ ∃ tail, log w' = log w
                             ++ (INFO, "Generating audio for: '" +:+ shown +:+ "...' ")
                                :: tail
                    ∧ (length tail ≤ 1)%nat).
Proof.
  cbn zeta. split.
  - intros Hrej.
    destruct (generate_audio_rejected env request w Hrej) as (code & detail & Hg & _).
    unfold serve. by rewrite Hg.
  - intros m Hv. split; [by eapply validated_draws_uuid|].
    destruct (str_take_prefix (text request) 30) as [Hl Hp].
    split; [done|]. split; [done|].
    rewrite (generate_audio_try _ _ _ _ Hv).
    destruct (synthesize_frame env m request w) as (_ & _ & Hlog & _).
    destruct (synthesize env m request w) as [w1 [e|reply]]; cbn [fst] in *.
    + eexists [_]. cbn [logger fst log]. rewrite Hlog. cbn [in_try log].
      split; [by rewrite <- app_assoc | done].
    + exists []. rewrite Hlog. cbn [in_try log]. split; [done | cbn; lia].
Qed.

Lemma generate_audio_side_effects_witness :
  let env := demo_env true true in
  let w := fst (lifespan_startup env (boot demo_files)) in
  fst (serve (generate_audio env (demo_request "")) w) = w
  ∧ uuids_drawn (fst (serve (generate_audio env (demo_request "hello")) w)) = 1.
Proof.
  intros env w. split.
  - apply (proj1 (generate_audio_side_effects env (demo_request "") w)).
    right. left. reflexivity.
  - apply (proj2 (generate_audio_side_effects env (demo_request "hello") w) demo_model).
    split; [reflexivity|]. split; [discriminate|]. eexists. reflexivity.
Defined.

(** X20.  A client that leaves out [speaker_wav] gets the default path,
    and then, with the model loaded, it is answered 400 exactly when its
    text is empty: a missing default file is reported as 500, never as a
    bad request. *)
Theorem default_speaker_bad_request env txt lang w m :
  tts_model w = Some m →
  let request := GenerateRequest_init env txt lang None in
  speaker_wav request = DEFAULT_SPEAKER_PATH env
  ∧ language request = default "en" lang
  ∧ (status (snd (serve (generate_audio env request) w)) = 400%Z ↔ txt = "").
Proof.
  intros Hm request. split; [done|]. split; [done|]. split.
  - intros Hst. destruct txt as [|c t]; [done|]. exfalso.
    destruct (files w !! DEFAULT_SPEAKER_PATH env) as [content|] eqn:Hs.
    + assert (Hv : validated request w m) by (split; [done|]; split; [done|]; by eexists).
      rewrite (generate_audio_try _ _ _ _ Hv) in Hst.
      destruct (synthesize_frame env m request w) as (_ & _ & _ & Hok).
      destruct (synthesize env m request w) as [w1 [e|reply]]; [done|].
      cbn [snd] in *. specialize (Hok reply eq_refl). congruence.
    + revert Hst. py_unfold. rewrite Hm. cbn [request GenerateRequest_init text
        speaker_wav str_is_empty default].
      rewrite Hs, bool_decide_eq_false_2 by (intros [? ?]; done). cbn [negb].
      by rewrite String.eqb_refl.
  - intros ->. py_unfold. by rewrite Hm.
Qed.

Lemma default_speaker_bad_request_witness :
  let env := demo_env true true in
  let w := fst (lifespan_startup env (boot ∅)) in
  status (snd (serve (generate_audio env (GenerateRequest_init env "" None None)) w))
  = 400%Z.
Proof.
  intros env w.
  apply (proj2 (proj2 (proj2 (default_speaker_bad_request env "" None w demo_model
                                eq_refl)))).
  reflexivity.
Defined.

(** *** What start-up leaves behind *)


End ServiceFacts.

(** * Properties of [GET /service] *)
Module StatusFacts.
Import Service Status.

Lemma isinf_false x :
  (inject_Z (- 2 ^ 53) <= x)%Q → (x <= inject_Z (2 ^ 53))%Q →
  Binary64.isinf x = false.
Proof.
  intros Hlo Hhi. unfold Binary64.isinf.
  apply orb_false_iff. split; apply not_true_is_false; intros H;
    apply Qle_bool_iff in H.
  - assert (inject_Z (2 ^ 1024) <= inject_Z (2 ^ 53))%Q as Hc
      by (eapply Qle_trans; eassumption).
    rewrite <- Zle_Qle in Hc. revert Hc. apply Z.lt_nge. by vm_compute.
  - assert (inject_Z (- 2 ^ 53) <= inject_Z (- 2 ^ 1024))%Q as Hc
      by (eapply Qle_trans; eassumption).
    rewrite <- Zle_Qle in Hc. revert Hc. apply Z.lt_nge. by vm_compute.
Qed.

(** A count of bytes below 2^53 is divided by 1024 twice without any
    rounding. *)
Lemma megabytes_exact (rss : N) :
  (rss < 2 ^ 53)%N →
  let kb := Binary64.round (inject_Z (Z.of_N rss) / 1024) in
  Binary64.isinf kb = false
  ∧ (Binary64.fdiv kb 1024 == inject_Z (Z.of_N rss) / 1048576)%Q.
Proof.
  intros Hr kb.
  assert (Hz : (0 <= Z.of_N rss < 2 ^ 53)%Z).
  { split; [lia|]. change (2 ^ 53)%Z with (Z.of_N (2 ^ 53)). lia. }
  assert (Hkb : (kb == inject_Z (Z.of_N rss) / 1024)%Q).
  { apply (Binary64Facts.round_exact _ (Z.of_N rss) 10); [lia | lia |].
    cbn. lia. }
  assert (Hq : (0 <= inject_Z (Z.of_N rss))%Q) by (rewrite <- (Zle_Qle 0); lia).
  assert (Hq' : (inject_Z (Z.of_N rss) < inject_Z (2 ^ 53))%Q)
    by (rewrite <- Zlt_Qlt; lia).
  split.
  - apply isinf_false; rewrite Hkb.
    + apply Qle_trans with 0%Q; [by vm_compute|].
      apply Qle_shift_div_l; [done|]. by rewrite Qmult_0_l.
    + apply Qle_shift_div_r; [done|].
      eapply Qle_trans; [apply Qlt_le_weak, Hq'|]. by vm_compute.
  - unfold Binary64.fdiv.
    assert (He : (kb / 1024 == inject_Z (Z.of_N rss) / 1048576)%Q).
    { rewrite Hkb. field. }
    rewrite <- He.
    apply (Binary64Facts.round_exact _ (Z.of_N rss) 20); [lia | lia |].
    assert (Hd : (kb / 1024 == Qmake (Z.of_N rss) 1048576)%Q)
      by (rewrite He; unfold Qeq; cbn; lia).
    revert Hd. generalize (kb / 1024)%Q. intros y Hd.
    unfold Qeq in Hd. cbn [Qnum Qden] in Hd. lia.
Qed.

(** X9.  [GET /service] changes nothing, whatever its outcome.  An
    exception of one of the three [psutil] calls escapes the handler.
    When they all return and the uptime is a finite float, the handler
    returns a document whose health status agrees with [GET /health]: "OK"
    exactly when [/health] answers 200, "ERROR" exactly when it answers
    503; the uptime it reports is the uptime string of the float
    difference of the two timestamps; the CPU figure is the one [psutil]
    gave; and the memory figure, for a resident set below 2^53 bytes,
    is that number of bytes over 2^20, exactly. *)
Theorem service_status_health env host w :
  let uptime_seconds := Binary64.fsub (time_now host) (START_TIME host) in
  fst (service_status host w) = w
  ∧ (∀ e, psutil_Process host = inl e → snd (service_status host w) = inl e)
  ∧ (psutil_Process host = inr () →
     Binary64.isinf uptime_seconds = false →
     (∀ e, cpu_percent host = inl e → snd (service_status host w) = inl e)
     ∧ (∀ cpu e, cpu_percent host = inr cpu → memory_info_rss host = inl e →
                 snd (service_status host w) = inl e)
     ∧ (∀ cpu rss,
          cpu_percent host = inr cpu →
          memory_info_rss host = inr rss →
          (rss < 2 ^ 53)%N →
          ∃ doc mb,
            snd (service_status host w) = inr doc
            ∧ (json_path ["health"; "status"] doc = Some (JString "OK")
               ↔ status (snd (serve (health_check env) w)) = 200%Z)
            ∧ (json_path ["health"; "status"] doc = Some (JString "ERROR")
               ↔ status (snd (serve (health_check env) w)) = 503%Z)
            ∧ json_path ["health"; "uptime"] doc
              = Some (JString (Uptime.uptime_str uptime_seconds))
            ∧ json_path ["metrics"; "cpu"; "avg"] doc = Some (JNumber cpu)
            ∧ json_path ["metrics"; "memory"; "avg"] doc = Some (JNumber mb)
            ∧ (mb == inject_Z (Z.of_N rss) / 1048576)%Q)).
Proof.
  cbn zeta.
  unfold service_status, host_call, format_uptime, int_truediv, serve,
    health_check, get_tts_model, raise, mbind, mret, Py_bind, Py_ret.
  split; [|split].
  - destruct (psutil_Process host) as [e|[]]; [done|].
    destruct (Binary64.isinf (Binary64.fsub _ _)); [done|].
    destruct (cpu_percent host) as [e|cpu]; [done|].
    destruct (memory_info_rss host) as [e|rss]; [done|].
    by destruct (Binary64.isinf (Binary64.round _)).
  - by intros e ->.
  - intros -> ->. split; [by intros e ->|]. split; [by intros cpu e -> ->|].
    intros cpu rss -> -> Hr.
    destruct (megabytes_exact rss Hr) as [Hkb Hmb].
    change (inject_Z 1024) with 1024%Q. rewrite Hkb.
    eexists. eexists. split; [reflexivity|].
    destruct (tts_model w) as [m|]; cbn [snd];
      (repeat split; [done..|exact Hmb]).
Qed.

Lemma service_status_health_witness :
  let env := demo_env true true in
  let w := fst (lifespan_startup env (boot demo_files)) in
  fst (service_status demo_host w) = w
  ∧ snd (service_status demo_host_denied w)
    = inl (Exception "psutil.AccessDenied")
  ∧ ∃ doc mb,
      snd (service_status demo_host w) = inr doc
      ∧ json_path ["health"; "uptime"] doc = Some (JString "1d 1h 1m 1s")
      ∧ json_path ["metrics"; "memory"; "avg"] doc = Some (JNumber mb)
      ∧ (mb == 3072)%Q.
Proof.
  intros env w.
  split; [exact (proj1 (service_status_health env demo_host w))|].
  split.
  - refine (proj1 (proj2 (proj2 (service_status_health env demo_host_denied w))
                     eq_refl _) _ eq_refl).
    by vm_compute.
  - destruct (proj2 (proj2 (proj2 (proj2 (service_status_health env demo_host w))
                              eq_refl ltac:(by vm_compute)))
                12.5%Q 3221225472%N eq_refl eq_refl ltac:(by vm_compute))
      as (doc & mb & Hdoc & _ & _ & Hup & _ & Hmem & Hmb).
    exists doc, mb. split; [exact Hdoc|]. split; [|split; [exact Hmem|]].
    + rewrite Hup. by vm_compute.
    + rewrite Hmb. by vm_compute.
Defined.

End StatusFacts.

(** * Properties of the patch of [torch.load] *)
Module TorchLoadFacts.
Import Service TorchLoad.

(** X10.  The patched loader hands its positional arguments on untouched
    and changes the keyword arguments in one place only: [weights_only] is
    set to [False] when the caller left it out and keeps the caller's value
    otherwise.  Patching twice is the same as patching once. *)
Theorem unsafe_load_weights_only {R} (original_load : Loader R) args kwargs :
  (∃ kwargs',
     unsafe_load original_load args kwargs = original_load args kwargs'
     ∧ kwargs' !! "weights_only"
       = Some (default (PyBool false) (kwargs !! "weights_only"))
     ∧ ∀ key, key ≠ "weights_only" → kwargs' !! key = kwargs !! key)
  ∧ unsafe_load (unsafe_load original_load) args kwargs
    = unsafe_load original_load args kwargs.
Proof.
  unfold unsafe_load. split.
  - destruct (bool_decide_reflect ("weights_only" ∈ dom kwargs)) as [Hin|Hout].
    + exists kwargs. apply elem_of_dom in Hin as [v Hv].
      rewrite Hv. done.
    + exists (<["weights_only" := PyBool false]> kwargs).
      apply not_elem_of_dom in Hout. rewrite Hout.
      split; [done|]. split; [apply lookup_insert_eq|].
      intros key Hkey. by apply lookup_insert_ne.
  - destruct (bool_decide_reflect ("weights_only" ∈ dom kwargs)) as [Hin|Hout].
    + by rewrite bool_decide_eq_true_2.
    + rewrite bool_decide_eq_true_2; [done|].
      rewrite dom_insert. set_solver.
Qed.

(** X11.  The patch lasts as long as the [with] block and no longer.
    Whatever the body does with [torch.load], and whether it returns or
    raises, the attribute is the original loader again after the block and
    the outcome of the block is that of the body.  A load without
    [weights_only] made inside the block reaches the original loader with
    [weights_only=False]; the same load made after the block reaches it
    with the keywords as given. *)
Theorem unsafe_torch_load_scoped {R A} (torch : Torch R)
    (body : Torch R → Torch R * (PyException + A)) args kwargs :
  kwargs !! "weights_only" = None →
  unsafe_torch_load body torch
  = (torch, snd (body {| load := unsafe_load (load torch) |}))
  ∧ snd (unsafe_torch_load (torch_load args kwargs) torch)
    = inr (load torch args (<["weights_only" := PyBool false]> kwargs))
  ∧ snd (torch_load args kwargs (fst (unsafe_torch_load body torch)))
    = inr (load torch args kwargs).
Proof.
  intros Hk. unfold unsafe_torch_load, torch_load.
  destruct torch as [original]. cbn [load].
  destruct (body _) as [torch' r]. cbn [fst snd load].
  split; [done|]. split; [|done].
  unfold unsafe_load. rewrite bool_decide_eq_false_2; [done|].
  by apply not_elem_of_dom.
Qed.

Lemma unsafe_torch_load_scoped_witness :
  let torch := {| load := echo_load |} in
  let raising : Torch _ → Torch _ * (PyException + unit) :=
    λ t, ({| load := λ _ _, ([], []) |}, inl (Exception "corrupt checkpoint")) in
  unsafe_torch_load raising torch = (torch, inl (Exception "corrupt checkpoint"))
  ∧ snd (unsafe_torch_load (torch_load [PyStr "model.pth"] ∅) torch)
    = inr ([PyStr "model.pth"], [("weights_only", PyBool false)]).
Proof.
  intros torch raising.
  assert (Hk : (∅ : gmap string PyVal) !! "weights_only" = None) by reflexivity.
  destruct (unsafe_torch_load_scoped torch raising [PyStr "model.pth"] ∅ Hk)
    as (Hrestore & Hinside & _).
  split; [exact Hrestore | exact Hinside].
Defined.

End TorchLoadFacts.
